(** * Perf Flame panel: the analysis engine of [src/my-panel.tsx]

    A shallow embedding of the pure computations of the panel
    ([parseCommits], the [stats] aggregation, the [jankyCommits] table,
    [Suggestions]) and of the state the panel keeps for the live capture
    session, followed by the properties the specification states about them.

    Numbers.  JavaScript numbers are modelled by exact rationals ([Q]); the
    values [NaN] and the infinities are outside the model.  Comparisons of
    finite doubles agree with the comparisons of the rationals they denote,
    and so does the sign of a difference [a - b], which is all the sort
    comparators of the source look at.  Integer quantities the source only
    counts ([commits.length], [janky], map counters) are [nat] or [Z]. *)

From Stdlib Require Import QArith Qround Qminmax ZArith List Bool Lia ZifyNat String Ascii.
From Stdlib Require Import Permutation Sorting.Sorted Lqa.
Import ListNotations.

Open Scope Q_scope.

(** ** JavaScript helpers *)

(** [Math.round]: nearest integer, halves towards +infinity. *)
Definition Math_round (x : Q) : Z := Qfloor (x + (1 # 2)).

(** [Math.floor]. *)
Definition Math_floor (x : Q) : Z := Qfloor x.

(** [a ?? b] on an optional value ([undefined] and [null] are [None]). *)
Definition nullish {A : Type} (a : option A) (b : A) : A :=
  match a with Some v => v | None => b end.

(** [a || 0] on an optional number: [undefined], [null] and [0] give [0]. *)
Definition or_zero (a : option Q) : Q :=
  match a with
  | Some v => if Qeq_bool v 0 then 0 else v
  | None => 0
  end.

(** [x > y] on numbers. *)
Definition gt (x y : Q) : bool := negb (Qle_bool x y).

(** [arr[i]] for a number [i] that is an integer: [undefined] out of range. *)
Definition index {A : Type} (arr : list A) (i : Z) : option A :=
  if (i <? 0)%Z then None else nth_error arr (Z.to_nat i).

(** [Array.prototype.sort(cmp)].  The standard requires the sort to be
    stable; for a consistent comparator the result is then determined, and
    it is the one this insertion sort computes: an element goes in front of
    the first element it does not compare greater than. *)
Section Sort.
Context {A : Type}.
Variable cmp : A -> A -> Q.

Fixpoint sort_insert (x : A) (l : list A) : list A :=
  match l with
  | [] => [x]
  | y :: r => if Qle_bool (cmp x y) 0 then x :: y :: r else y :: sort_insert x r
  end.

Fixpoint sort (l : list A) : list A :=
  match l with
  | [] => []
  | x :: r => sort_insert x (sort r)
  end.
End Sort.

(** [arr.slice(0, k)]. *)
Definition slice0 {A : Type} (k : nat) (arr : list A) : list A := firstn k arr.

(** A [Map<string, V>]: entries in insertion order; [set] on a key that is
    present replaces the value in place. *)
Section JsMap.
Context {V : Type}.

Fixpoint map_get (m : list (string * V)) (k : string) : option V :=
  match m with
  | [] => None
  | (k', v) :: r => if String.eqb k' k then Some v else map_get r k
  end.

Fixpoint map_set (m : list (string * V)) (k : string) (v : V) : list (string * V) :=
  match m with
  | [] => [(k, v)]
  | (k', v') :: r =>
      if String.eqb k' k then (k', v) :: r else (k', v') :: map_set r k v
  end.
End JsMap.

(** ** Data model *)

Record Updater := { displayName : option string }.

Record Commit := {
  timestamp : option Q;
  duration : Q;
  effectDuration : option Q;
  passiveEffectDuration : option Q;
  priority : option string;
  updaters : option (list Updater)
}.

Record Root := {
  commitData : option (list Commit);
  rootDisplayName : option string
}.

Record ProfilerJSON := {
  dataForRoots : option (list Root);
  profilingStartTime : option Q;
  profilingEndTime : option Q;
  version : option Q
}.

(** ** [parseCommits] on a document that has the declared type

    With the declared type [commitData] is an array when it is there, so
    the final [Array.isArray] test holds; [Dyn.parseCommits] below is the
    function on documents of any shape, and [parseCommits_typed] relates the
    two. *)

Definition parseCommits (json : ProfilerJSON) : list Commit :=
  let roots := nullish (dataForRoots json) [] in
  let first := index roots 0 in
  let commits := nullish (match first with
                          | Some r => commitData r
                          | None => None
                          end) [] in
  commits.

(** ** The aggregation [stats] *)

Definition anonymous : string := "(anonymous)".

(** The variables the loop of [stats] updates. *)
Record Acc := {
  a_janky : nat;
  a_worst : option Commit;
  a_updaterCounts : list (string * Z);
  a_updaterWeighted : list (string * Q);
  a_durations : list Q;
  a_effectHeavy : nat;
  a_passiveHeavy : nat;
  a_maxPassive : Q
}.

Definition acc0 : Acc :=
  {| a_janky := 0; a_worst := None; a_updaterCounts := []; a_updaterWeighted := [];
     a_durations := []; a_effectHeavy := 0; a_passiveHeavy := 0; a_maxPassive := 0 |}.

(** [u.displayName || "(anonymous)"]. *)
Definition updaterName (u : Updater) : string :=
  match displayName u with
  | Some s => if String.eqb s EmptyString then anonymous else s
  | None => anonymous
  end.

(** The inner loop body, on the two maps. *)
Definition stepUpdater (d : Q) (maps : list (string * Z) * list (string * Q)) (u : Updater)
  : list (string * Z) * list (string * Q) :=
  let name := updaterName u in
  let counts := fst maps in
  let weighted := snd maps in
  (map_set counts name (nullish (map_get counts name) 0%Z + 1)%Z,
   map_set weighted name (nullish (map_get weighted name) 0 + d)).

(** The outer loop body. *)
Definition stepCommit (budget : Q) (acc : Acc) (c : Commit) : Acc :=
  let worst := match a_worst acc with
               | None => Some c
               | Some w => if gt (duration c) (duration w) then Some c else Some w
               end in
  let janky := if gt (duration c) budget then S (a_janky acc) else a_janky acc in
  let durations := (a_durations acc ++ [duration c])%list in
  let effectHeavy := if gt (nullish (effectDuration c) 0) (budget * (1 # 2))
                     then S (a_effectHeavy acc) else a_effectHeavy acc in
  let passiveHeavy := if gt (nullish (passiveEffectDuration c) 0) (budget * (1 # 2))
                      then S (a_passiveHeavy acc) else a_passiveHeavy acc in
  let maxPassive := if gt (nullish (passiveEffectDuration c) 0) (a_maxPassive acc)
                    then nullish (passiveEffectDuration c) 0 else a_maxPassive acc in
  let maps := fold_left (stepUpdater (duration c)) (nullish (updaters c) [])
                        (a_updaterCounts acc, a_updaterWeighted acc) in
  {| a_janky := janky; a_worst := worst;
     a_updaterCounts := fst maps; a_updaterWeighted := snd maps;
     a_durations := durations; a_effectHeavy := effectHeavy;
     a_passiveHeavy := passiveHeavy; a_maxPassive := maxPassive |}.

Definition loop (budget : Q) (commits : list Commit) : Acc :=
  fold_left (stepCommit budget) commits acc0.

(** [name && name !== '(anonymous)'] *)
Definition named {V : Type} (e : string * V) : bool :=
  negb (String.eqb (fst e) EmptyString) && negb (String.eqb (fst e) anonymous).

Definition sum (l : list Q) : Q := fold_left Qplus l 0.

Record Stats := {
  total : nat;
  janky : nat;
  jankRate : Z;
  worst : Commit;
  topUpdaters : list (string * Z);
  avg : Q;
  median : option Q;
  p95 : option Q;
  culpritsByDuration : list (string * Q);
  effectShare : Z;
  passiveShare : Z;
  maxPassive : Q;
  perMinute : option Z
}.

(** [n / d] for two counts, as a number. *)
Definition ratio (n d : nat) : Q := inject_Z (Z.of_nat n) / inject_Z (Z.of_nat d).

(** [(a + b) / 2] where either operand may be [undefined] (the result is
    then [NaN], which the model renders as [None]). *)
Definition mean2 (a b : option Q) : option Q :=
  match a, b with
  | Some x, Some y => Some ((x + y) / 2)
  | _, _ => None
  end.

(** The lines under [// Key insights]: median, p95 and average of the
    durations the loop collected.  The indices are integers: [(n - 1) / 2]
    and [n / 2] are taken in the branch where the division is exact, and
    the double product [0.95 * (n - 1)] has the floor of the exact product
    for every length an array can have (the double nearest to 0.95 is off by
    less than half a unit in the last place of any multiple of 19). *)
Record Insights := {
  i_median : option Q;
  i_p95 : option Q;
  i_avg : Q
}.

Definition keyInsights (durations : list Q) : Insights :=
  let sorted := sort (fun a b => a - b) durations in
  let n := Z.of_nat (List.length sorted) in
  let median := if (n mod 2 =? 0)%Z
                then mean2 (index sorted (n / 2 - 1)) (index sorted (n / 2))
                else index sorted ((n - 1) / 2) in
  let p95 := index sorted (Math_floor ((95 # 100) * inject_Z (n - 1))) in
  let avg := sum sorted / inject_Z (Z.max 1 n) in
  {| i_median := median; i_p95 := p95; i_avg := avg |}.

(** The body of the [useMemo] that computes [stats], as a function of what
    it reads: the commits, the budget and the profile. *)
Definition aggregate (commits : list Commit) (budget : Q) (profile : option ProfilerJSON)
  : option Stats :=
  match commits with
  | [] => None
  | c0 :: _ =>
      let acc := loop budget commits in
      let len := List.length commits in
      let topUpdaters :=
        slice0 8 (sort (fun a b => inject_Z (snd b - snd a))
                       (filter named (a_updaterCounts acc))) in
      let culpritsByDuration :=
        slice0 8 (sort (fun a b => snd b - snd a)
                       (filter named (a_updaterWeighted acc))) in
      let jankRate := Math_round (ratio (a_janky acc) len * 100) in
      let insights := keyInsights (a_durations acc) in
      let windowMs :=
        nullish (match profile with Some p => profilingEndTime p | None => None end) 0
        - nullish (match profile with Some p => profilingStartTime p | None => None end) 0 in
      let perMinute := if gt windowMs 0
                       then Some (Math_round (inject_Z (Z.of_nat len) / windowMs * 60000))
                       else None in
      Some {| total := len;
              janky := a_janky acc;
              jankRate := jankRate;
              (* [worst!]: the loop has set it, see [loop_worst_some] *)
              worst := nullish (a_worst acc) c0;
              topUpdaters := topUpdaters;
              avg := i_avg insights;
              median := i_median insights;
              p95 := i_p95 insights;
              culpritsByDuration := culpritsByDuration;
              effectShare := Math_round (ratio (a_effectHeavy acc) len * 100);
              passiveShare := Math_round (ratio (a_passiveHeavy acc) len * 100);
              maxPassive := a_maxPassive acc;
              perMinute := perMinute |}
  end.

(** ** The panel *)

Inductive Hz := Hz60 | Hz120.

Definition budgetOf (hz : Hz) : Q :=
  match hz with Hz60 => 167 # 10 | Hz120 => 83 # 10 end.

(** [commits]: [profile ? parseCommits(profile) : []]. *)
Definition commitsOf (profile : option ProfilerJSON) : list Commit :=
  match profile with Some p => parseCommits p | None => [] end.

(** [stats], from the panel's state. *)
Definition stats (profile : option ProfilerJSON) (hz : Hz) : option Stats :=
  aggregate (commitsOf profile) (budgetOf hz) profile.

(** ** [jankyCommits] *)

(** [{ ...c, idx: i }] *)
Record IndexedCommit := { commit : Commit; idx : nat }.

(** [commits.map((c, i) => ({ ...c, idx: i }))], from position [i]. *)
Fixpoint withIndex (i : nat) (commits : list Commit) : list IndexedCommit :=
  match commits with
  | [] => []
  | c :: r => {| commit := c; idx := i |} :: withIndex (S i) r
  end.

Definition jankyCommits (commits : list Commit) (budget : Q) : list IndexedCommit :=
  slice0 20
    (sort (fun a b => duration (commit b) - duration (commit a))
          (filter (fun c => gt (duration (commit c)) budget)
                  (withIndex 0 commits))).

(** ** [Suggestions] *)

(** How numbers are printed is left open: [toFixed1 n] stands for
    [n.toFixed(1)] and [numberToString n] for the text of [n] in a template
    literal. *)
Record NumberFormat := {
  toFixed1 : Q -> string;
  numberToString : Q -> string
}.

Open Scope string_scope.

(** [ms(n)]: a dash when [n] is not a number. *)
Definition ms (fmt : NumberFormat) (n : option Q) : string :=
  match n with
  | None => "—"
  | Some v => toFixed1 fmt v ++ " ms"
  end.

Record Metrics := {
  worstFps : option Q;
  stallTotalMs : option Q
}.

Definition msgJank : string :=
  "High jank rate: audit expensive renders; prefer memoization and virtualization.".
Definition msgP95 (fmt : NumberFormat) (p : option Q) (budget : Q) : string :=
  "P95 exceeds budget (" ++ ms fmt p ++ " > " ++ ms fmt (Some budget)
  ++ "): split work across frames and defer effects.".
Definition msgPassive : string :=
  "Large passive effects: move heavy logic out of effects or defer to Idle callbacks.".
Definition msgAvg : string :=
  "Average commit close to budget: consider UI-thread animations and reducing setState fan-out.".
Definition msgAnonymous : string :=
  "Anonymous updaters: name components/functions to track hotspots precisely.".
Definition msgFps (fmt : NumberFormat) (f : Q) : string :=
  "Low FPS observed (" ++ numberToString fmt f
  ++ "): move animations to UI thread and reduce JS work during interactions.".
Definition msgStalls (fmt : NumberFormat) (t : option Q) : string :=
  "JS thread stalls totaled " ++ ms fmt t
  ++ ": debounce state updates and offload heavy sync work.".
Definition msgCulprit (name : string) : string :=
  "Top culprit: " ++ name ++ " – memoize props, split work, and avoid unnecessary renders.".
Definition msgHealthy : string :=
  "Looks healthy. Keep components pure and derived, and monitor P95 over time.".

(** [if (cond) items.push(s)] *)
Definition pushIf (cond : bool) (s : string) (items : list string) : list string :=
  if cond then (items ++ [s])%list else items.

(** [undefined > b] is false. *)
Definition optGt (a : option Q) (b : Q) : bool :=
  match a with Some v => gt v b | None => false end.

(** [arr.some(p)] *)
Definition some {A : Type} (p : A -> bool) (arr : list A) : bool := existsb p arr.

(** The list [items] the component renders, one [<li>] per element. *)
Definition Suggestions (fmt : NumberFormat) (stats : Stats) (budget : Q)
    (metrics : option Metrics) : list string :=
  let items := [] in
  let items := pushIf (20 <? jankRate stats)%Z msgJank items in
  let items := pushIf (optGt (p95 stats) budget) (msgP95 fmt (p95 stats) budget) items in
  let items := pushIf (gt (or_zero (passiveEffectDuration (worst stats))) (budget * (1 # 2))%Q)
                      msgPassive items in
  let items := pushIf (gt (avg stats) (budget * (6 # 10))%Q) msgAvg items in
  let items := pushIf (some (fun e => String.eqb (fst e) anonymous) (topUpdaters stats))
                      msgAnonymous items in
  let items :=
    match metrics with
    | Some m => match worstFps m with
                | Some f => pushIf (negb (Qle_bool 50 f)) (msgFps fmt f) items
                | None => items
                end
    | None => items
    end in
  let stall := match metrics with Some m => stallTotalMs m | None => None end in
  let items := pushIf (gt (nullish stall 0%Q) 200) (msgStalls fmt stall) items in
  let items :=
    match culpritsByDuration stats with
    | (name, _) :: _ => (items ++ [msgCulprit name])%list
    | [] => items
    end in
  let items := pushIf (Nat.eqb (List.length items) 0) msgHealthy items in
  items.

Close Scope string_scope.

(** ** The panel's state and its event handlers *)

Record PanelState := {
  client : bool;
  profile : option ProfilerJSON;
  hz : Hz;
  isCapturing : bool;
  fps : option Q;
  stallsMs : option Q;
  hermesStatus : option string;
  sessionWorstFps : option Q;
  sessionStallTotalMs : Q
}.

Definition initialState (client : bool) : PanelState :=
  {| client := client; profile := None; hz := Hz60; isCapturing := false;
     fps := None; stallsMs := None; hermesStatus := None;
     sessionWorstFps := None; sessionStallTotalMs := 0 |}.

(** The payload of ["fps-tick"]. *)
Record FpsTick := { tick_fps : Q; jsStallsMs : Q }.

(** What the panel sends over the bridge. *)
Inductive Sent :=
| StartProfiler (hz : Hz)
| StopProfiler (hz : Hz)
| ResetProfiler.

(** The ["fps-tick"] listener. *)
Definition onFpsTick (d : FpsTick) (st : PanelState) : PanelState :=
  {| client := client st; profile := profile st; hz := hz st;
     isCapturing := isCapturing st;
     fps := Some (tick_fps d);
     stallsMs := Some (jsStallsMs d);
     hermesStatus := hermesStatus st;
     sessionWorstFps := match sessionWorstFps st with
                        | None => Some (tick_fps d)
                        | Some prev => Some (Qmin prev (tick_fps d))
                        end;
     sessionStallTotalMs := sessionStallTotalMs st + or_zero (Some (jsStallsMs d)) |}.

(** The ["profiler-export"] listener. *)
Definition onProfilerExport (data : ProfilerJSON) (st : PanelState) : PanelState :=
  {| client := client st; profile := Some data; hz := hz st;
     isCapturing := isCapturing st; fps := fps st; stallsMs := stallsMs st;
     hermesStatus := hermesStatus st;
     sessionWorstFps := sessionWorstFps st;
     sessionStallTotalMs := sessionStallTotalMs st |}.

(** [toggleCapture].  [profilingData] is what the DevTools profiler store
    hands back on stop ([None] when there is no store or no data). *)
Definition toggleCapture (profilingData : option ProfilerJSON) (st : PanelState)
  : PanelState * list Sent :=
  if negb (client st) then (st, [])
  else
    let next := negb (isCapturing st) in
    ({| client := client st;
        profile := if next then profile st
                   else match profilingData with
                        | Some p => Some p
                        | None => profile st
                        end;
        hz := hz st;
        isCapturing := next;
        fps := fps st; stallsMs := stallsMs st;
        hermesStatus := hermesStatus st;
        (* starting: reset session metrics *)
        sessionWorstFps := if next then None else sessionWorstFps st;
        sessionStallTotalMs := if next then 0 else sessionStallTotalMs st |},
     [if next then StartProfiler (hz st) else StopProfiler (hz st)]).

(** The click handler of the Clear button (rendered only with a client). *)
Definition onClear (st : PanelState) : PanelState * list Sent :=
  if negb (client st) then (st, [])
  else
    ({| client := client st;
        profile := None;
        hz := hz st;
        isCapturing := false;
        fps := None;
        stallsMs := None;
        hermesStatus := None;
        sessionWorstFps := sessionWorstFps st;
        sessionStallTotalMs := sessionStallTotalMs st |},
     [ResetProfiler]).

(** The state after a run of ["fps-tick"] messages. *)
Definition onSamples (samples : list FpsTick) (st : PanelState) : PanelState :=
  fold_left (fun s d => onFpsTick d s) samples st.

(** What the panel hands to [Suggestions] as [metrics]:
    [{ worstFps: sessionWorstFps ?? undefined, stallTotalMs: sessionStallTotalMs }]. *)
Definition metricsOf (st : PanelState) : Metrics :=
  {| worstFps := sessionWorstFps st; stallTotalMs := Some (sessionStallTotalMs st) |}.

(** ** [parseCommits] on an arbitrary decoded document

    The panel stores whatever [JSON.parse] or the bridge hands it, so
    [parseCommits] can meet a value of any shape.  [Dyn] models the values
    of the language and the operations [parseCommits] applies to them, with
    the [TypeError] a property access on [undefined] or [null] raises. *)
Module Dyn.

Local Open Scope string_scope.

#[warnings="-register-all"]
Inductive JsValue :=
| JUndefined
| JNull
| JBool (b : bool)
| JNum (n : Q)
| JStr (s : string)
| JArr (elems : list JsValue)
| JObj (fields : list (string * JsValue)).

Inductive result (A : Type) :=
| Ok (a : A)
| TypeError.
Arguments Ok {A} a.
Arguments TypeError {A}.

Definition bind {A B : Type} (r : result A) (k : A -> result B) : result B :=
  match r with Ok a => k a | TypeError => TypeError end.

Notation "x <- r ;; k" := (bind r (fun x => k))
  (at level 61, r at next level, right associativity).

Definition isNullish (v : JsValue) : bool :=
  match v with JUndefined | JNull => true | _ => false end.

(** Own property [k] of an object literal. *)
Fixpoint lookup (fields : list (string * JsValue)) (k : string) : JsValue :=
  match fields with
  | [] => JUndefined
  | (k', v) :: r => if String.eqb k' k then v else lookup r k
  end.

(** [v.name] for a name that no array, string, number or boolean has
    as a property (as [dataForRoots] and [commitData]). *)
Definition member (v : JsValue) (name : string) : result JsValue :=
  match v with
  | JUndefined | JNull => TypeError
  | JObj fields => Ok (lookup fields name)
  | _ => Ok JUndefined
  end.

(** [v?.name] *)
Definition optMember (v : JsValue) (name : string) : result JsValue :=
  if isNullish v then Ok JUndefined else member v name.

(** [v[0]] *)
Definition at0 (v : JsValue) : result JsValue :=
  match v with
  | JUndefined | JNull => TypeError
  | JArr elems => Ok (nullish (nth_error elems 0) JUndefined)
  | JStr s => Ok (match s with
                  | EmptyString => JUndefined
                  | String ch _ => JStr (String ch EmptyString)
                  end)
  | JObj fields => Ok (lookup fields "0")
  | _ => Ok JUndefined
  end.

(** [a ?? b] *)
Definition orElse (a b : JsValue) : JsValue := if isNullish a then b else a.

Definition parseCommits (json : JsValue) : result (list JsValue) :=
  d <- optMember json "dataForRoots" ;;
  let roots := orElse d (JArr []) in
  first <- at0 roots ;;
  c <- optMember first "commitData" ;;
  let commits := orElse c (JArr []) in
  Ok (match commits with JArr elems => elems | _ => [] end).

(** *** Documents of the declared type, as values *)

Definition field (k : string) (enc : Q -> JsValue) (o : option Q)
  : list (string * JsValue) :=
  match o with Some v => [(k, enc v)] | None => [] end.

Definition fieldStr (k : string) (o : option string) : list (string * JsValue) :=
  match o with Some s => [(k, JStr s)] | None => [] end.

Definition ofUpdater (u : Updater) : JsValue :=
  JObj (fieldStr "displayName" (displayName u)).

Definition ofCommit (c : Commit) : JsValue :=
  JObj (field "timestamp" JNum (timestamp c)
        ++ [("duration", JNum (duration c))]
        ++ field "effectDuration" JNum (effectDuration c)
        ++ field "passiveEffectDuration" JNum (passiveEffectDuration c)
        ++ fieldStr "priority" (priority c)
        ++ match updaters c with
           | Some us => [("updaters", JArr (map ofUpdater us))]
           | None => []
           end)%list.

Definition ofRoot (r : Root) : JsValue :=
  JObj (match commitData r with
        | Some cs => [("commitData", JArr (map ofCommit cs))]
        | None => []
        end
        ++ fieldStr "displayName" (rootDisplayName r))%list.

Definition ofProfile (p : ProfilerJSON) : JsValue :=
  JObj (match dataForRoots p with
        | Some rs => [("dataForRoots", JArr (map ofRoot rs))]
        | None => []
        end
        ++ field "profilingStartTime" JNum (profilingStartTime p)
        ++ field "profilingEndTime" JNum (profilingEndTime p)
        ++ field "version" JNum (version p))%list.

End Dyn.

(** ** What the rows, meters and bars compute

    The colours of [theme] the computations choose between. *)
Module theme.
Definition primary : string := "#60a5fa".
Definition success : string := "#22c55e".
Definition warning : string := "#f59e0b".
Definition danger : string := "#ef4444".
End theme.

(** [clamp]: [Math.max(min, Math.min(max, n))]. *)
Definition clamp (n min max : Q) : Q := Qmax min (Qmin max n).

(** [durationColor].  The quotient is the one of the rationals, so the
    function is the source's for a budget other than 0 (both presets are). *)
Definition durationColor (duration budget : Q) : string :=
  let ratio := duration / budget in
  if Qle_bool ratio (6 # 10) then theme.success
  else if Qle_bool ratio 1 then theme.warning
  else theme.danger.

(** [MeterBar]: the width of the inner bar, in percent, and its colour. *)
Record Meter := {
  meter_pct : Q;
  meter_color : string
}.

Definition MeterBar (value : Q) : Meter :=
  let v := clamp value 0 2 in
  {| meter_pct := Qmin 100 (v * 50);
     meter_color := if Qle_bool v (6 # 10) then theme.success
                    else if Qle_bool v 1 then theme.warning
                    else theme.danger |}.

(** [CommitRow]: what a row of the jank table computes from its commit and
    the budget; the three percentages are printed followed by a percent
    sign.  As in [durationColor], the quotient by the budget is the source's
    for a budget other than 0. *)
Record Row := {
  row_topUpdater : string;
  row_render : Q;
  row_total : Q;
  row_rPct : Z;
  row_ePct : Z;
  row_pPct : Z;
  row_color : string;
  row_meter : Meter
}.

Definition CommitRow (c : Commit) (budget : Q) : Row :=
  let topUpdater := match updaters c with
                    | Some (u :: _) => nullish (displayName u) "—"%string
                    | _ => "—"%string
                    end in
  let effect := nullish (effectDuration c) 0 in
  let passive := nullish (passiveEffectDuration c) 0 in
  let render := Qmax 0 (duration c - effect - passive) in
  let total := Qmax (1 # 1000000) (render + effect + passive) in
  {| row_topUpdater := topUpdater;
     row_render := render;
     row_total := total;
     row_rPct := Math_round (render / total * 100);
     row_ePct := Math_round (effect / total * 100);
     row_pPct := Math_round (passive / total * 100);
     row_color := durationColor (duration c) budget;
     row_meter := MeterBar (clamp (duration c / budget) 0 2) |}.

(** [Hotspots]: one bar per item, [None] standing for the "No hotspots
    detected" placeholder.  [Math.max(...counts)] is taken over a list that
    is not empty; the quotients are the source's when that maximum is not
    0. *)
Record Bar := {
  bar_name : string;
  bar_count : Q;
  bar_width : Q;
  bar_color : string
}.

Definition Hotspots (items : list (string * Q)) : option (list Bar) :=
  match items with
  | [] => None
  | (_, c0) :: rest =>
      let max := fold_left Qmax (map snd rest) c0 in
      Some (map (fun item =>
                   let count := snd item in
                   {| bar_name := fst item;
                      bar_count := count;
                      bar_width := count / max * 100;
                      bar_color := if gt (count / max) (66 # 100) then theme.danger
                                   else if gt (count / max) (33 # 100) then theme.warning
                                   else theme.primary |})
                items)
  end.

(** The items of the "Re-render hotspots" section: [stats.topUpdaters]. *)
Definition hotspotItems (st : Stats) : list (string * Q) :=
  map (fun e => (fst e, inject_Z (snd e))) (topUpdaters st).

(** ** The bridge on the device ([react-native.ts])

    The variables [setupPlugin] closes over and the callbacks that update
    them.  Each callback is an event; what the environment supplies when it
    runs (the readings of [Date.now()], whether the DevTools hook could be
    wrapped, the payload an export function returned) comes with the event.
    [Date.now()] is a whole number of milliseconds. *)
Module Bridge.

Record State := {
  capturing : bool;
  lastTick : Z;
  stallAccum : Z;
  usedHook : bool;
  lastHookPayload : option ProfilerJSON
}.

(** What the bridge sends to the panel. *)
Inductive Sent :=
| Export (payload : ProfilerJSON)
| Tick (d : FpsTick).

(** The variables when [setupPlugin] returns; [now] is the reading that
    initialises [lastTick]. *)
Definition setup (now : Z) : State :=
  {| capturing := false; lastTick := now; stallAccum := 0;
     usedHook := false; lastHookPayload := None |}.

(** [raf]: the stall estimator, run every 16 ms while capturing. *)
Definition raf (now : Z) (s : State) : State :=
  if negb (capturing s) then s
  else
    let dt := (now - lastTick s)%Z in
    {| capturing := capturing s;
       lastTick := now;
       stallAccum := if (50 <? dt)%Z then (stallAccum s + (dt - 16))%Z else stallAccum s;
       usedHook := usedHook s;
       lastHookPayload := lastHookPayload s |}.

(** The interval that emits ["fps-tick"] every second. *)
Definition emit (now : Z) (s : State) : State * list Sent :=
  if negb (capturing s) then (s, [])
  else
    let fps := 1000 / inject_Z (Z.max 16 (now - lastTick s)) in
    let fpsData := {| tick_fps := inject_Z (Math_round fps);
                      jsStallsMs := inject_Z (Math_round (inject_Z (stallAccum s))) |} in
    ({| capturing := capturing s; lastTick := lastTick s; stallAccum := 0;
        usedHook := usedHook s; lastHookPayload := lastHookPayload s |},
     [Tick fpsData]).

(** The wrapper installed around [onCommitFiberRoot]; [profilerData] is
    what [extractProfilerData] returned for the committed root ([None] also
    when there is no root to look at). *)
Definition onCommitFiberRoot (profilerData : option ProfilerJSON) (s : State)
  : State * list Sent :=
  if capturing s
  then match profilerData with
       | Some p =>
           ({| capturing := capturing s; lastTick := lastTick s;
               stallAccum := stallAccum s; usedHook := usedHook s;
               lastHookPayload := Some p |},
            [Export p])
       | None => (s, [])
       end
  else (s, []).

(** The fallback poller, every 1500 ms; [payload] is what the export
    functions returned. *)
Definition poll (payload : option ProfilerJSON) (s : State) : State * list Sent :=
  if negb (capturing s) then (s, [])
  else match payload with
       | Some p => (s, [Export p])
       | None => (s, [])
       end.

(** The ["start-profiler"] handler.  [hooked] tells whether
    [tryHookProfiler] succeeded; [t1] is the reading stored in [lastTick]
    and [t2] the one the first [raf] takes. *)
Definition onStart (hooked : bool) (t1 t2 : Z) (s : State) : State * list Sent :=
  if capturing s then (s, [])
  else
    (raf t2 {| capturing := true; lastTick := t1; stallAccum := 0;
               usedHook := if hooked then true else usedHook s;
               lastHookPayload := lastHookPayload s |},
     []).

(** The ["stop-profiler"] handler; [fallback] is what the export functions
    return when they are asked. *)
Definition onStop (fallback : option ProfilerJSON) (s : State) : State * list Sent :=
  let sent :=
    match usedHook s, lastHookPayload s with
    | true, Some p => [Export p]
    | _, _ => match fallback with
              | Some p => [Export p]
              | None => []
              end
    end in
  ({| capturing := false; lastTick := lastTick s; stallAccum := stallAccum s;
      usedHook := false; lastHookPayload := None |},
   sent).

(** The ["reset-profiler"] handler. *)
Definition onReset (s : State) : State * list Sent :=
  ({| capturing := false; lastTick := lastTick s; stallAccum := stallAccum s;
      usedHook := usedHook s; lastHookPayload := lastHookPayload s |},
   []).

Inductive Event :=
| Start (hooked : bool) (t1 t2 : Z)
| Stop (fallback : option ProfilerJSON)
| Reset
| Raf (now : Z)
| Emit (now : Z)
| Commit (profilerData : option ProfilerJSON)
| Poll (payload : option ProfilerJSON).

Definition step (ev : Event) (s : State) : State * list Sent :=
  match ev with
  | Start hooked t1 t2 => onStart hooked t1 t2 s
  | Stop fallback => onStop fallback s
  | Reset => onReset s
  | Raf now => (raf now s, [])
  | Emit now => emit now s
  | Commit d => onCommitFiberRoot d s
  | Poll p => poll p s
  end.

(** A run of events: the final state and everything sent, in order. *)
Fixpoint run (evs : list Event) (s : State) : State * list Sent :=
  match evs with
  | [] => (s, [])
  | ev :: rest =>
      let (s1, out1) := step ev s in
      let (s2, out2) := run rest s1 in
      (s2, (out1 ++ out2)%list)
  end.

End Bridge.

(** ** [extractProfilerData]

    A fiber pointer with the fields [traverseFiber] reads; [NoFiber] is the
    [null] that ends a chain of children or siblings.  [elementTypeName] is
    [fiber.elementType?.displayName].  The [i]-th call of [Date.now()] reads
    [clock i]. *)
Inductive Fiber :=
| NoFiber
| FiberNode (actualDuration : option Q)
            (fiberEffect fiberPassive : option Q)
            (lanes : option Q)
            (elementTypeName : option string)
            (child sibling : Fiber).

(** The commit [traverseFiber] pushes for a fiber that has an
    [actualDuration]. *)
Definition commitOfFiber (fmt : NumberFormat) (now : Z) (d : Q)
    (effect passive lanes : option Q) (name : option string) : Commit :=
  {| timestamp := Some (inject_Z now);
     duration := d;
     effectDuration := Some (or_zero effect);
     passiveEffectDuration := Some (or_zero passive);
     priority := match lanes with
                 | Some l => if Qeq_bool l 0 then None
                             else Some ("Lane-" ++ numberToString fmt l)%string
                 | None => None
                 end;
     updaters := match name with
                 | Some s => if String.eqb s EmptyString then Some []
                             else Some [ {| displayName := Some s |} ]
                 | None => Some []
                 end |}.

(** [traverseFiber], on the number of clock readings taken so far and the
    [commits] array. *)
Fixpoint traverseFiber (fmt : NumberFormat) (clock : nat -> Z) (fiber : Fiber)
    (st : nat * list Commit) : nat * list Commit :=
  match fiber with
  | NoFiber => st
  | FiberNode ad effect passive lanes name child sibling =>
      let st1 := match ad with
                 | Some d => (S (fst st),
                              (snd st ++ [commitOfFiber fmt (clock (fst st)) d
                                                        effect passive lanes name])%list)
                 | None => st
                 end in
      let st2 := traverseFiber fmt clock child st1 in
      traverseFiber fmt clock sibling st2
  end.

(** [extractProfilerData(root)], for [root.current]. *)
Definition extractProfilerData (fmt : NumberFormat) (clock : nat -> Z) (current : Fiber)
  : option ProfilerJSON :=
  let st := traverseFiber fmt clock current (0%nat, []) in
  let commits := snd st in
  if (0 <? List.length commits)%nat
  then Some {| dataForRoots := Some [ {| commitData := Some commits;
                                         rootDisplayName := Some "App"%string |} ];
               profilingStartTime := Some (inject_Z (clock (fst st) - 5000));
               profilingEndTime := Some (inject_Z (clock (S (fst st))));
               version := Some 4 |}
  else None.

(** * Notions the properties are stated with *)

(** Ordered by a numeric key first and, among equal keys, by [prec]. *)
Definition keyThenPrec {A : Type} (key : A -> Q) (prec : A -> A -> Prop) (a b : A) : Prop :=
  key a < key b \/ (key a == key b /\ prec a b).

(** How many elements of [l] satisfy [p]; [below x] and [upto x] select the
    numbers less than [x] and at most [x]. *)
Definition count (p : Q -> bool) (l : list Q) : nat := List.length (filter p l).

Definition below (x : Q) : Q -> bool := fun y => gt x y.
Definition upto (x : Q) : Q -> bool := fun y => Qle_bool y x.

(** The standard definitions, on an ascending arrangement [s] of the
    durations. *)
Definition isMedianOf (s : list Q) (m : Q) : Prop :=
  let n := List.length s in
  if Nat.odd n
  then exists x, nth_error s ((n - 1) / 2) = Some x /\ m == x
  else exists a b, nth_error s (n / 2 - 1) = Some a
                   /\ nth_error s (n / 2) = Some b
                   /\ m == (a + b) / 2.

Definition p95Index (n : nat) : nat :=
  Z.to_nat (Qfloor ((95 # 100) * inject_Z (Z.of_nat n - 1))).

Definition isP95Of (s : list Q) (p : Q) : Prop :=
  exists y, nth_error s (p95Index (List.length s)) = Some y /\ p == y.

(** A commit that carries a duration and nothing else: [{ duration: d }]. *)
Definition commitOf (d : Q) : Commit :=
  {| timestamp := None; duration := d; effectDuration := None;
     passiveEffectDuration := None; priority := None; updaters := None |}.

(** The hand-computed sequence of the specification. *)
Definition oneToTen : list Q := [1; 2; 3; 4; 5; 6; 7; 8; 9; 10].

(** The order of the jank table: longer commits first, and among commits
    of equal duration the one that came first in the profile. *)
Definition jankOrder (a b : IndexedCommit) : Prop :=
  duration (commit b) < duration (commit a)
  \/ (duration (commit a) == duration (commit b) /\ (idx a < idx b)%nat).

(** The profiling window [profilingEndTime - profilingStartTime] of the
    document, a missing bound counting as 0. *)
Definition windowOf (profile : option ProfilerJSON) : Q :=
  nullish (match profile with Some p => profilingEndTime p | None => None end) 0
  - nullish (match profile with Some p => profilingStartTime p | None => None end) 0.

(** A document with one root that holds [commits], profiled from [t0] to [t1]. *)
Definition documentOf (commits : list Commit) (t0 t1 : Q) : ProfilerJSON :=
  {| dataForRoots := Some [ {| commitData := Some commits; rootDisplayName := None |} ];
     profilingStartTime := Some t0; profilingEndTime := Some t1; version := None |}.

(** The eight rules of the suggestion engine in their priority order, each
    with its predicate and the message it contributes. *)
Definition rules (fmt : NumberFormat) (st : Stats) (budget : Q) (metrics : option Metrics)
  : list (bool * string) :=
  let fpsv := match metrics with Some m => worstFps m | None => None end in
  let stall := match metrics with Some m => stallTotalMs m | None => None end in
  [ (* 1: jank rate above 20% *)
    ((20 <? jankRate st)%Z, msgJank);
    (* 2: p95 above the budget *)
    (optGt (p95 st) budget, msgP95 fmt (p95 st) budget);
    (* 3: passive duration of the worst commit above half the budget *)
    (gt (or_zero (passiveEffectDuration (worst st))) (budget * (1 # 2)), msgPassive);
    (* 4: mean above 0.6 of the budget *)
    (gt (avg st) (budget * (6 # 10)), msgAvg);
    (* 5: a top render-count component is the anonymous sentinel *)
    (existsb (fun e => String.eqb (fst e) anonymous) (topUpdaters st), msgAnonymous);
    (* 6: live worst FPS present and below 50 *)
    (match fpsv with Some f => negb (Qle_bool 50 f) | None => false end,
     msgFps fmt (nullish fpsv 0));
    (* 7: live cumulative stall above 200 ms *)
    (gt (nullish stall 0) 200, msgStalls fmt stall);
    (* 8: there is a top culprit by cumulative duration *)
    (negb (Nat.eqb (List.length (culpritsByDuration st)) 0),
     msgCulprit (match culpritsByDuration st with (name, _) :: _ => name | [] => EmptyString end))
  ].

(** The messages of the rules that trigger, in rule order. *)
Definition triggered (rs : list (bool * string)) : list string :=
  map snd (filter fst rs).

(** A format to run the examples with: how the numbers print plays no part
    in any property. *)
Definition plainFormat : NumberFormat :=
  {| toFixed1 := fun _ => "n"%string; numberToString := fun _ => "n"%string |}.

(** An updater [{ displayName: name }]. *)
Definition updaterOf (name : string) : Updater := {| displayName := Some name |}.

(** Two commits over the budget, the first with an unnamed updater and an
    updater called Foo, the second with Foo again. *)
Definition twoCommits : list Commit :=
  [ {| timestamp := None; duration := 20; effectDuration := None;
       passiveEffectDuration := None; priority := None;
       updaters := Some [ {| displayName := None |}; updaterOf "Foo" ] |};
    {| timestamp := None; duration := 30; effectDuration := None;
       passiveEffectDuration := None; priority := None;
       updaters := Some [ updaterOf "Foo" ] |} ].

(** The sum of a sequence of numbers. *)
Definition total_of (l : list Q) : Q := fold_right Qplus 0 l.

(** [max(0, stallMs)] over the samples. *)
Definition clampedStalls (samples : list FpsTick) : list Q :=
  map (fun d => Qmax 0 (jsStallsMs d)) samples.

(** [m] is the minimum of the fps values of [samples]. *)
Definition isMinFps (samples : list FpsTick) (m : Q) : Prop :=
  (exists d, In d samples /\ m = tick_fps d)
  /\ (forall d, In d samples -> m <= tick_fps d).

(** The samples of the specification: fps 60, 45, 70 with stalls 10, 300, 5. *)
Definition threeSamples : list FpsTick :=
  [ {| tick_fps := 60; jsStallsMs := 10 |};
    {| tick_fps := 45; jsStallsMs := 300 |};
    {| tick_fps := 70; jsStallsMs := 5 |} ].

(** A decoded document with two roots; only the first has commits. *)
Definition twoRoots : Dyn.JsValue :=
  Dyn.JObj [ ("dataForRoots"%string,
              Dyn.JArr [ Dyn.JObj [ ("commitData"%string,
                                     Dyn.JArr [ Dyn.JObj [ ("duration"%string, Dyn.JNum 20) ] ]) ];
                         Dyn.JObj [ ("commitData"%string, Dyn.JStr "none") ] ]) ].

(** [w] is the first commit of [l] with the greatest duration. *)
Definition FirstMax (l : list Commit) (w : Commit) : Prop :=
  exists i, nth_error l i = Some w
            /\ (forall c, In c l -> duration c <= duration w)
            /\ (forall j c, (j < i)%nat -> nth_error l j = Some c ->
                            duration c < duration w).

(** [c.passiveEffectDuration ?? 0] and [c.effectDuration ?? 0]. *)
Definition passiveOf (c : Commit) : Q := nullish (passiveEffectDuration c) 0.


(** The updaters of all commits in the order the two loops of [stats] visit
    them: the name each one is recorded under, with the duration of its
    commit. *)
Definition occurrences (commits : list Commit) : list (string * Q) :=
  flat_map (fun c => map (fun u => (updaterName u, duration c))
                         (nullish (updaters c) []))
           commits.

(** The occurrences recorded under [name]. *)
Definition occurrencesOf (name : string) (commits : list Commit) : list (string * Q) :=
  filter (fun o => String.eqb (fst o) name) (occurrences commits).

(** How often [name] occurs, and the durations of the commits it occurs in,
    added up. *)
Definition timesSeen (name : string) (commits : list Commit) : nat :=
  List.length (occurrencesOf name commits).


(** The distinct names of a sequence, in the order of their first
    occurrence. *)
Fixpoint firstSeen (names : list string) : list string :=
  match names with
  | [] => []
  | x :: r => x :: filter (fun y => negb (String.eqb x y)) (firstSeen r)
  end.

(** [a] comes before [b] in [l]. *)
Definition occursBefore {A : Type} (l : list A) (a b : A) : Prop :=
  exists l1 l2 l3, l = (l1 ++ a :: l2 ++ b :: l3)%list.

(** One [set(name, (get(name) || zero) + w)] on a map. *)
Definition tally {V W : Type} (zero : V) (add : V -> W -> V)
    (m : list (string * V)) (o : string * W) : list (string * V) :=
  map_set m (fst o) (add (nullish (map_get m (fst o)) zero) (snd o)).

(** The order of the render-count ranking: more occurrences first, and
    among equal counts the name that was met first. *)
Definition countOrder (commits : list Commit) (a b : string * Z) : Prop :=
  (snd b < snd a)%Z
  \/ (snd a = snd b
      /\ occursBefore (firstSeen (map fst (occurrences commits))) (fst a) (fst b)).


(** Three commits whose updaters are Foo, an unnamed one and Bar, then Bar,
    then Foo. *)
Definition threeWithUpdaters : list Commit :=
  [ {| timestamp := None; duration := 20; effectDuration := None;
       passiveEffectDuration := None; priority := None;
       updaters := Some [ updaterOf "Foo"; {| displayName := None |}; updaterOf "Bar" ] |};
    {| timestamp := None; duration := 5; effectDuration := None;
       passiveEffectDuration := None; priority := None;
       updaters := Some [ updaterOf "Bar" ] |};
    {| timestamp := None; duration := 30; effectDuration := None;
       passiveEffectDuration := None; priority := None;
       updaters := Some [ updaterOf "Foo" ] |} ].

(** The bar [Hotspots] draws for an item when the greatest count is [max]. *)
Definition barOf (max : Q) (item : string * Q) : Bar :=
  let count := snd item in
  {| bar_name := fst item;
     bar_count := count;
     bar_width := count / max * 100;
     bar_color := if gt (count / max) (66 # 100) then theme.danger
                  else if gt (count / max) (33 # 100) then theme.warning
                  else theme.primary |}.

(** The samples among what the bridge sent. *)
Fixpoint ticksOf (out : list Bridge.Sent) : list FpsTick :=
  match out with
  | [] => []
  | Bridge.Tick d :: r => d :: ticksOf r
  | Bridge.Export _ :: r => ticksOf r
  end.

(** The events that neither start nor stop a capture. *)
Definition quiet (ev : Bridge.Event) : bool :=
  match ev with
  | Bridge.Start _ _ _ | Bridge.Stop _ => false
  | _ => true
  end.

(** The payload of the last commit of [evs] that produced one. *)
Fixpoint lastCommit (evs : list Bridge.Event) : option ProfilerJSON :=
  match evs with
  | [] => None
  | ev :: r =>
      match lastCommit r with
      | Some p => Some p
      | None => match ev with Bridge.Commit (Some p) => Some p | _ => None end
      end
  end.

(** A sample of whole numbers: an fps between 0 and 63 and a stall that is
    not negative. *)
Definition tickInRange (d : FpsTick) : Prop :=
  (exists f, tick_fps d = inject_Z f /\ (0 <= f <= 63)%Z)
  /\ (exists k, jsStallsMs d = inject_Z k /\ (0 <= k)%Z).

(** The callbacks that run during a capture: timers, commits and polls. *)
Definition inSession (ev : Bridge.Event) : bool :=
  match ev with
  | Bridge.Raf _ | Bridge.Emit _ | Bridge.Commit _ | Bridge.Poll _ => true
  | _ => false
  end.

(** What a stop exports: [payload] when the hook was used and there is
    one, the fallback otherwise, nothing when there is neither. *)
Definition finalExport (hookUsed : bool) (payload fallback : option ProfilerJSON)
  : list Bridge.Sent :=
  match hookUsed, payload with
  | true, Some p => [Bridge.Export p]
  | _, _ => match fallback with
            | Some p => [Bridge.Export p]
            | None => []
            end
  end.

(** The [actualDuration]s of a fiber tree: the fiber, then its children,
    then its siblings. *)
Fixpoint measured (fiber : Fiber) : list Q :=
  match fiber with
  | NoFiber => []
  | FiberNode ad _ _ _ _ child sibling =>
      ((match ad with Some d => [d] | None => [] end)
       ++ measured child ++ measured sibling)%list
  end.

(** What every extracted commit has: a timestamp, both effect durations,
    and at most one updater, which has a name. *)
Definition extractedShape (c : Commit) : Prop :=
  timestamp c <> None
  /\ effectDuration c <> None
  /\ passiveEffectDuration c <> None
  /\ (updaters c = Some []
      \/ exists s, s <> EmptyString
                   /\ updaters c = Some [ {| displayName := Some s |} ]).

(** A chain of three fibers: a measured one, an unmeasured child and a
    measured sibling of that child. *)
Definition threeFibers : Fiber :=
  FiberNode (Some 20) None None None (Some "App"%string)
    (FiberNode None None None None None
       NoFiber
       (FiberNode (Some 3) (Some 1) None (Some 1) None NoFiber NoFiber))
    NoFiber.

(** The updates of the two maps of [stats]: one more occurrence, and the
    duration of the commit on top. *)
Definition tallyCount : list (string * Z) -> string * Q -> list (string * Z) :=
  tally 0%Z (fun v _ => (v + 1)%Z).
Definition tallyTime : list (string * Q) -> string * Q -> list (string * Q) :=
  tally 0 Qplus.

(** * Properties *)

Ltac Zify.zify_post_hook ::= Z.div_mod_to_equations.

(** ** Numbers *)

Lemma gt_true (x y : Q) : gt x y = true <-> y < x.
Proof.
  unfold gt. destruct (Qle_bool x y) eqn:E; simpl.
  - apply Qle_bool_iff in E. split; [discriminate | intro H].
    exfalso. exact (Qlt_not_le _ _ H E).
  - split; [intros _ | reflexivity].
    apply Qnot_le_lt. intro H. apply Qle_bool_iff in H. congruence.
Qed.

Lemma gt_false (x y : Q) : gt x y = false <-> x <= y.
Proof.
  unfold gt. rewrite negb_false_iff. apply Qle_bool_iff.
Qed.

Lemma or_zero_some (v : Q) : or_zero (Some v) == v.
Proof.
  unfold or_zero. destruct (Qeq_bool v 0) eqn:E; [|reflexivity].
  apply Qeq_bool_iff in E. symmetry. exact E.
Qed.

(** ** [sort] *)

Section SortFacts.
Context {A : Type}.
Variable cmp : A -> A -> Q.

Lemma sort_insert_perm (x : A) (l : list A) :
  Permutation (sort_insert cmp x l) (x :: l).
Proof.
  induction l as [|y r IH]; simpl.
  - apply Permutation_refl.
  - destruct (Qle_bool (cmp x y) 0).
    + apply Permutation_refl.
    + apply perm_trans with (y :: x :: r).
      * apply perm_skip, IH.
      * apply perm_swap.
Qed.

Lemma sort_perm (l : list A) : Permutation (sort cmp l) l.
Proof.
  induction l as [|x r IH]; simpl.
  - apply perm_nil.
  - apply perm_trans with (x :: sort cmp r).
    + apply sort_insert_perm.
    + apply perm_skip, IH.
Qed.

Lemma sort_length (l : list A) : List.length (sort cmp l) = List.length l.
Proof. apply Permutation_length, sort_perm. Qed.

Lemma sort_In (l : list A) (x : A) : In x (sort cmp l) <-> In x l.
Proof.
  split; apply Permutation_in; [|apply Permutation_sym]; apply sort_perm.
Qed.

(** The comparator orders by a numeric [key]; [prec] is any relation the
    input is already sorted by (its positions, for instance).  The output is
    then ordered by the key first and by [prec] among equal keys: that is
    stability. *)
Variable key : A -> Q.
Variable prec : A -> A -> Prop.
Hypothesis cmp_key : forall a b, cmp a b <= 0 <-> key a <= key b.


Lemma keyThenPrec_le (a b : A) : keyThenPrec key prec a b -> key a <= key b.
Proof.
  intros [H|[H _]].
  - apply Qlt_le_weak, H.
  - rewrite H. apply Qle_refl.
Qed.

Lemma sort_insert_stable (x : A) (s : list A) :
  StronglySorted (keyThenPrec key prec) s ->
  Forall (prec x) s ->
  StronglySorted (keyThenPrec key prec) (sort_insert cmp x s).
Proof.
  induction s as [|y r IH]; intros Hs Hx; simpl.
  - constructor; constructor.
  - inversion Hs as [|? ? Hr Hy]; subst.
    inversion Hx as [|? ? Hxy Hxr]; subst.
    destruct (Qle_bool (cmp x y) 0) eqn:E.
    + apply Qle_bool_iff, cmp_key in E.
      constructor; [exact Hs|].
      constructor.
      * destruct (Qle_lt_or_eq _ _ E) as [Hlt|Heq]; [left | right]; auto.
      * rewrite Forall_forall in *. intros z Hz.
        pose proof (keyThenPrec_le _ _ (Hy z Hz)) as Hyz.
        destruct (Qle_lt_or_eq _ _ (Qle_trans _ _ _ E Hyz)) as [Hlt|Heq];
          [left | right]; auto.
    + constructor; [apply IH; assumption|].
      rewrite Forall_forall in *. intros z Hz.
      apply (Permutation_in _ (sort_insert_perm x r)) in Hz.
      destruct Hz as [<-|Hz]; [|auto].
      left. apply Qnot_le_lt. intro H. apply cmp_key, Qle_bool_iff in H.
      congruence.
Qed.

Lemma sort_stable (l : list A) :
  StronglySorted prec l -> StronglySorted (keyThenPrec key prec) (sort cmp l).
Proof.
  induction l as [|x r IH]; intros Hl; simpl.
  - constructor.
  - inversion Hl as [|? ? Hr Hx]; subst.
    apply sort_insert_stable; [apply IH, Hr|].
    rewrite Forall_forall in *. intros z Hz. apply Hx.
    exact (proj1 (sort_In r z) Hz).
Qed.

End SortFacts.

Lemma StronglySorted_weaken {A : Type} (R S : A -> A -> Prop) (l : list A) :
  (forall a b, R a b -> S a b) -> StronglySorted R l -> StronglySorted S l.
Proof.
  intros HRS H. induction H; constructor; auto.
  eapply Forall_impl; [|eassumption]. auto.
Qed.

Lemma StronglySorted_True {A : Type} (l : list A) :
  StronglySorted (fun _ _ => True) l.
Proof.
  induction l; constructor; auto. apply Forall_forall. auto.
Qed.

(** Sorting numbers with the comparator [a - b] gives an ascending list. *)
Lemma sort_ascending (l : list Q) :
  StronglySorted Qle (sort (fun a b => a - b) l).
Proof.
  apply StronglySorted_weaken
    with (R := keyThenPrec (fun q : Q => q) (fun _ _ => True)).
  - intros a b H. exact (keyThenPrec_le _ _ _ _ H).
  - apply sort_stable; [|apply StronglySorted_True].
    intros a b. split; intro H.
    + apply Qplus_le_l with (z := - b). rewrite Qplus_opp_r. exact H.
    + apply Qplus_le_l with (z := - b) in H. rewrite Qplus_opp_r in H. exact H.
Qed.

(** ** Order statistics

    The element at position [k] of an ascending list is characterised,
    up to [==], by how many elements lie below it: that makes it independent
    of the sorting algorithm. *)


Lemma count_perm (p : Q -> bool) (l l' : list Q) :
  Permutation l l' -> count p l = count p l'.
Proof.
  unfold count. induction 1; simpl.
  - reflexivity.
  - destruct (p x); simpl; congruence.
  - destruct (p x), (p y); reflexivity.
  - congruence.
Qed.

Lemma count_mono (p q : Q -> bool) (l : list Q) :
  (forall z, p z = true -> q z = true) -> (count p l <= count q l)%nat.
Proof.
  intros H. unfold count. induction l as [|a r IH]; simpl; [lia|].
  destruct (p a) eqn:E.
  - rewrite (H a E). simpl. lia.
  - destruct (q a); simpl; lia.
Qed.

Lemma count_none (p : Q -> bool) (l : list Q) :
  Forall (fun z => p z = false) l -> count p l = 0%nat.
Proof.
  unfold count. induction 1 as [|a r Ha _ IH]; simpl; [reflexivity|].
  rewrite Ha. exact IH.
Qed.

Lemma rank_of_sorted (s : list Q) :
  StronglySorted Qle s ->
  forall k x, nth_error s k = Some x ->
              (count (below x) s <= k < count (upto x) s)%nat.
Proof.
  induction 1 as [|a r Hr IH Ha]; intros k x Hk.
  - destruct k; discriminate.
  - destruct k as [|k]; simpl in Hk.
    + injection Hk as ->. unfold count. simpl.
      unfold below at 1, upto at 1.
      assert (gt x x = false) as -> by (apply gt_false, Qle_refl).
      assert (Qle_bool x x = true) as -> by (apply Qle_bool_iff, Qle_refl).
      fold (count (below x) r).
      rewrite count_none; simpl; [lia|].
      eapply Forall_impl; [|exact Ha]. intros z Hz. apply gt_false, Hz.
    + specialize (IH k x Hk).
      assert (a <= x) as Hax.
      { rewrite Forall_forall in Ha. apply Ha. eapply nth_error_In, Hk. }
      unfold count in *. simpl. unfold upto at 1.
      assert (Qle_bool a x = true) as -> by (apply Qle_bool_iff, Hax).
      destruct (below x a); simpl; lia.
Qed.

Lemma rank_unique (l : list Q) (k : nat) (x y : Q) :
  (count (below x) l <= k < count (upto x) l)%nat ->
  (count (below y) l <= k < count (upto y) l)%nat ->
  x == y.
Proof.
  assert (forall u v, u < v -> (count (upto u) l <= count (below v) l)%nat) as M.
  { intros u v Huv. apply count_mono. intros z Hz.
    apply Qle_bool_iff in Hz. apply gt_true.
    eapply Qle_lt_trans; eassumption. }
  intros Hx Hy.
  destruct (Q_dec x y) as [[Hlt|Hgt]|Heq]; [| |exact Heq].
  - specialize (M x y Hlt). lia.
  - specialize (M y x Hgt). lia.
Qed.

(** Two ascending arrangements of the same numbers agree position by
    position. *)
Lemma sorted_perm_nth (s1 s2 : list Q) (k : nat) (x : Q) :
  StronglySorted Qle s1 -> StronglySorted Qle s2 -> Permutation s1 s2 ->
  nth_error s1 k = Some x ->
  exists y, nth_error s2 k = Some y /\ x == y.
Proof.
  intros H1 H2 P Hk.
  destruct (nth_error s2 k) as [y|] eqn:E.
  - exists y. split; [reflexivity|].
    pose proof (rank_of_sorted s1 H1 k x Hk) as R1.
    pose proof (rank_of_sorted s2 H2 k y E) as R2.
    rewrite (count_perm (below x) _ _ P), (count_perm (upto x) _ _ P) in R1.
    exact (rank_unique s2 k x y R1 R2).
  - exfalso. apply nth_error_None in E.
    assert (k < List.length s1)%nat by (apply nth_error_Some; congruence).
    apply Permutation_length in P. lia.
Qed.

(** ** The loop of [stats] *)

Lemma loop_durations_from (budget : Q) (commits : list Commit) (acc : Acc) :
  a_durations (fold_left (stepCommit budget) commits acc)
  = (a_durations acc ++ map duration commits)%list.
Proof.
  revert acc. induction commits as [|c r IH]; intros acc; simpl.
  - symmetry. apply app_nil_r.
  - rewrite IH. simpl. rewrite <- app_assoc. reflexivity.
Qed.

Lemma loop_durations (budget : Q) (commits : list Commit) :
  a_durations (loop budget commits) = map duration commits.
Proof. unfold loop. rewrite loop_durations_from. reflexivity. Qed.

Lemma loop_janky_from (budget : Q) (commits : list Commit) (acc : Acc) :
  a_janky (fold_left (stepCommit budget) commits acc)
  = (a_janky acc
     + List.length (filter (fun c => gt (duration c) budget) commits))%nat.
Proof.
  revert acc. induction commits as [|c r IH]; intros acc; simpl.
  - lia.
  - rewrite IH. simpl. destruct (gt (duration c) budget); simpl; lia.
Qed.

Lemma loop_janky (budget : Q) (commits : list Commit) :
  a_janky (loop budget commits)
  = List.length (filter (fun c => gt (duration c) budget) commits).
Proof. unfold loop. rewrite loop_janky_from. reflexivity. Qed.

Lemma loop_worst_from (budget : Q) (commits : list Commit) (acc : Acc) :
  (commits <> [] \/ a_worst acc <> None) ->
  a_worst (fold_left (stepCommit budget) commits acc) <> None.
Proof.
  revert acc. induction commits as [|c r IH]; intros acc H; simpl.
  - destruct H as [H|H]; [congruence | exact H].
  - apply IH. right. simpl.
    destruct (a_worst acc) as [w|]; [destruct (gt _ _)|]; discriminate.
Qed.

(** The non-null assertion [worst!] of the source is justified. *)
Lemma loop_worst_some (budget : Q) (commits : list Commit) :
  commits <> [] -> exists w, a_worst (loop budget commits) = Some w.
Proof.
  intros H. pose proof (loop_worst_from budget commits acc0 (or_introl H)) as W.
  unfold loop. destruct (a_worst _) as [w|]; [eauto | congruence].
Qed.

(** ** Key insights: median and p95 *)

Lemma index_nat {A : Type} (l : list A) (i : Z) :
  (0 <= i)%Z -> index l i = nth_error l (Z.to_nat i).
Proof.
  intros H. unfold index.
  destruct (i <? 0)%Z eqn:E; [|reflexivity].
  apply Z.ltb_lt in E. lia.
Qed.

Lemma aggregate_some (commits : list Commit) (budget : Q) (profile : option ProfilerJSON) :
  commits <> [] -> exists st, aggregate commits budget profile = Some st.
Proof.
  destruct commits as [|c0 r]; [congruence|]. intros _.
  unfold aggregate. eexists. reflexivity.
Qed.

Lemma aggregate_insights (commits : list Commit) (budget : Q)
    (profile : option ProfilerJSON) (st : Stats) :
  aggregate commits budget profile = Some st ->
  median st = i_median (keyInsights (map duration commits))
  /\ p95 st = i_p95 (keyInsights (map duration commits))
  /\ avg st = i_avg (keyInsights (map duration commits)).
Proof.
  destruct commits as [|c0 r]; [discriminate|].
  unfold aggregate. intros H. injection H as <-.
  cbn [median p95 avg]. rewrite loop_durations. auto.
Qed.


Lemma p95_floor_bounds (n : Z) :
  (1 <= n)%Z ->
  (0 <= Qfloor ((95 # 100) * inject_Z (n - 1)) <= n - 1)%Z.
Proof.
  intros H. split.
  - change 0%Z with (Qfloor 0). apply Qfloor_resp_le.
    unfold Qle, Qmult, inject_Z. cbn [Qnum Qden]. lia.
  - rewrite <- (Qfloor_Z (n - 1)) at 2. apply Qfloor_resp_le.
    unfold Qle, Qmult, inject_Z. cbn [Qnum Qden]. lia.
Qed.

(** [floor(0.95 * (n - 1))] in integer arithmetic. *)
Lemma p95Index_div (n : nat) : p95Index n = (19 * (n - 1) / 20)%nat.
Proof.
  unfold p95Index.
  destruct n as [|k].
  - reflexivity.
  - replace (Z.of_nat (S k) - 1)%Z with (Z.of_nat k) by lia.
    replace (S k - 1)%nat with k by lia.
    unfold Qfloor, Qmult, inject_Z. cbn [Qnum Qden].
    apply Nat2Z.inj. rewrite Z2Nat.id.
    + rewrite Nat2Z.inj_div, Nat2Z.inj_mul.
      change (Z.of_nat 19) with 19%Z. change (Z.of_nat 20) with 20%Z.
      Z.div_mod_to_equations. lia.
    + apply Z.div_pos; lia.
Qed.

Lemma nat_odd_mod2 (n : nat) : Nat.odd n = negb (Z.of_nat n mod 2 =? 0)%Z.
Proof.
  destruct (Nat.odd n) eqn:O.
  - apply Nat.odd_spec in O. destruct O as [k ->].
    symmetry. apply negb_true_iff, Z.eqb_neq. lia.
  - assert (Nat.even n = true) as Ev
        by (rewrite <- Nat.negb_odd, O; reflexivity).
    apply Nat.even_spec in Ev. destruct Ev as [k ->].
    symmetry. apply negb_false_iff, Z.eqb_eq. lia.
Qed.

Lemma keyInsights_standard (ds s : list Q) :
  ds <> [] -> Permutation s ds -> StronglySorted Qle s ->
  exists m p, i_median (keyInsights ds) = Some m
              /\ i_p95 (keyInsights ds) = Some p
              /\ isMedianOf s m /\ isP95Of s p.
Proof.
  intros Hne P Hs.
  pose (sorted := sort (fun a b => a - b) ds).
  assert (Permutation sorted s) as HP.
  { eapply perm_trans; [apply sort_perm | apply Permutation_sym, P]. }
  assert (List.length sorted = List.length s) as Hlen
      by (apply Permutation_length, HP).
  assert (1 <= List.length s)%nat as Hn.
  { apply Permutation_length in P. destruct ds; [congruence|]. simpl in P. lia. }
  assert (forall k, (k < List.length s)%nat ->
            exists v y, nth_error sorted k = Some v
                        /\ nth_error s k = Some y /\ v == y) as Hnth.
  { intros k Hk. destruct (nth_error sorted k) as [v|] eqn:E.
    - destruct (sorted_perm_nth sorted s k v (sort_ascending ds) Hs HP E)
        as (y & Hy & Hvy).
      exists v, y. auto.
    - apply nth_error_None in E. lia. }
  unfold keyInsights. cbn [i_median i_p95]. fold sorted. rewrite Hlen.
  set (n := List.length s) in *.
  (* p95 *)
  pose proof (p95_floor_bounds (Z.of_nat n) ltac:(lia)) as Hb.
  destruct (Hnth (p95Index n)) as (pv & py & Hpv & Hpy & Hpe).
  { unfold p95Index. lia. }
  assert (index sorted (Math_floor ((95 # 100) * inject_Z (Z.of_nat n - 1)))
          = Some pv) as ->.
  { unfold Math_floor. rewrite index_nat by lia. exact Hpv. }
  assert (isP95Of s pv) as HP95.
  { unfold isP95Of. fold n. exists py. auto. }
  (* median *)
  unfold isMedianOf. fold n. rewrite (nat_odd_mod2 n).
  destruct (Z.of_nat n mod 2 =? 0)%Z eqn:E; cbn [negb].
  - apply Z.eqb_eq in E.
    destruct (Hnth (n / 2 - 1)%nat) as (v1 & y1 & Hv1 & Hy1 & He1); [lia|].
    destruct (Hnth (n / 2)%nat) as (v2 & y2 & Hv2 & Hy2 & He2); [lia|].
    rewrite !index_nat by lia.
    replace (Z.to_nat (Z.of_nat n / 2 - 1)) with (n / 2 - 1)%nat by lia.
    replace (Z.to_nat (Z.of_nat n / 2)) with (n / 2)%nat by lia.
    rewrite Hv1, Hv2. cbn [mean2].
    exists ((v1 + v2) / 2), pv. repeat split; auto.
    exists y1, y2. repeat split; auto.
    rewrite He1, He2. reflexivity.
  - apply Z.eqb_neq in E.
    destruct (Hnth ((n - 1) / 2)%nat) as (v & y & Hv & Hy & He); [lia|].
    rewrite index_nat by lia.
    replace (Z.to_nat ((Z.of_nat n - 1) / 2)) with ((n - 1) / 2)%nat by lia.
    rewrite Hv. exists v, pv. repeat split; auto.
    exists y. auto.
Qed.

(** C1.  For a non-empty commit sequence and any ascending arrangement [s]
    of its durations, [stats] has a median and a p95; the median is the
    middle element of [s] when the count is odd and the average of the two
    middle elements when it is even, and p95 is the element of [s] at index
    [floor(0.95 * (n - 1))].  When the durations are 1, 2, ..., 10 the median
    is 5.5 and p95 is 9. *)
Theorem median_p95_standard
    (commits : list Commit) (budget : Q) (profile : option ProfilerJSON) (s : list Q) :
  commits <> [] ->
  Permutation s (map duration commits) ->
  Sorted Qle s ->
  (exists st m p,
      aggregate commits budget profile = Some st
      /\ median st = Some m /\ p95 st = Some p
      /\ isMedianOf s m /\ isP95Of s p)
  /\ (map duration commits = oneToTen ->
      exists st m,
        aggregate commits budget profile = Some st
        /\ median st = Some m /\ m == 55 # 10 /\ p95 st = Some 9).
Proof.
  intros Hne P Hs.
  destruct (aggregate_some commits budget profile Hne) as [st Hst].
  destruct (aggregate_insights _ _ _ _ Hst) as (Hm & Hp & _).
  split.
  - assert (map duration commits <> []) as Hd
        by (destruct commits; [congruence | discriminate]).
    apply Sorted_StronglySorted in Hs; [|exact Qle_trans].
    destruct (keyInsights_standard _ s Hd P Hs) as (m & p & Em & Ep & HM & HP).
    exists st, m, p. rewrite Hm, Hp. auto.
  - intros E. rewrite E in Hm, Hp.
    exists st, ((5 + 6) / 2). repeat split; auto.
Qed.

Lemma median_p95_standard_witness :
  map commitOf oneToTen <> []
  /\ Permutation oneToTen (map duration (map commitOf oneToTen))
  /\ Sorted Qle oneToTen
  /\ exists st m,
       aggregate (map commitOf oneToTen) (167 # 10) None = Some st
       /\ median st = Some m /\ m == 55 # 10 /\ p95 st = Some 9.
Proof.
  assert (map commitOf oneToTen <> []) as H1 by discriminate.
  assert (Permutation oneToTen (map duration (map commitOf oneToTen))) as H2
      by apply Permutation_refl.
  assert (Sorted Qle oneToTen) as H3
      by (repeat constructor; discriminate).
  repeat split; try assumption.
  exact (proj2 (median_p95_standard (map commitOf oneToTen) (167 # 10) None
                                    oneToTen H1 H2 H3) eq_refl).
Defined.

(** ** The jank table *)

Lemma withIndex_In (commits : list Commit) (i : nat) (e : IndexedCommit) :
  In e (withIndex i commits)
  <-> (i <= idx e)%nat /\ nth_error commits (idx e - i) = Some (commit e).
Proof.
  revert i. induction commits as [|c r IH]; intros i; simpl.
  - split; [tauto|]. intros [_ H]. destruct (idx e - i)%nat; discriminate.
  - rewrite IH. split.
    + intros [<-|[Hle Hn]]; simpl.
      * rewrite Nat.sub_diag. auto.
      * split; [lia|].
        replace (idx e - i)%nat with (S (idx e - S i)) by lia. exact Hn.
    + intros [Hle Hn].
      destruct (idx e - i)%nat as [|k] eqn:E; simpl in Hn.
      * left. destruct e as [ec ei]. simpl in *.
        injection Hn as ->. f_equal. lia.
      * right. split; [lia|].
        replace (idx e - S i)%nat with k by lia. exact Hn.
Qed.

Lemma withIndex_sorted (commits : list Commit) (i : nat) :
  StronglySorted (fun a b => (idx a < idx b)%nat) (withIndex i commits).
Proof.
  revert i. induction commits as [|c r IH]; intros i; simpl; constructor.
  - apply IH.
  - apply Forall_forall. intros e He. apply withIndex_In in He. simpl. lia.
Qed.

Lemma filter_sorted {A : Type} (R : A -> A -> Prop) (p : A -> bool) (l : list A) :
  StronglySorted R l -> StronglySorted R (filter p l).
Proof.
  induction 1 as [|a r Hr IH Ha]; simpl; [constructor|].
  destruct (p a); [|exact IH].
  constructor; [exact IH|].
  rewrite Forall_forall in *. intros x Hx. apply filter_In in Hx. apply Ha, Hx.
Qed.

Lemma Qopp_le_iff (x y : Q) : - x <= - y <-> y <= x.
Proof. unfold Qle, Qopp. cbn [Qnum Qden]. lia. Qed.

Lemma Qopp_lt_iff (x y : Q) : - x < - y <-> y < x.
Proof. unfold Qlt, Qopp. cbn [Qnum Qden]. lia. Qed.

Lemma Qopp_eq_iff (x y : Q) : - x == - y <-> x == y.
Proof. unfold Qeq, Qopp. cbn [Qnum Qden]. lia. Qed.

Lemma Qminus_le_0 (x y : Q) : x - y <= 0 <-> x <= y.
Proof. unfold Qle, Qminus, Qplus, Qopp. cbn [Qnum Qden]. nia. Qed.

Lemma sorted_idx_NoDup (l : list IndexedCommit) :
  StronglySorted (fun a b => (idx a < idx b)%nat) l -> NoDup (map idx l).
Proof.
  induction 1 as [|a r Hr IH Ha]; simpl; constructor; [|exact IH].
  intros Hin. apply in_map_iff in Hin. destruct Hin as (b & Hb & Hin).
  rewrite Forall_forall in Ha. specialize (Ha b Hin). lia.
Qed.

(** C2.  The jank table is the first 20 entries of a list [full] that holds
    exactly the commits longer than the budget, each once and with its
    zero-based position in the profile, in descending order of duration
    with commits of equal duration in their original order. *)
Theorem jankyCommits_table (commits : list Commit) (budget : Q) :
  exists full,
    jankyCommits commits budget = firstn 20 full
    /\ (List.length (jankyCommits commits budget) <= 20)%nat
    /\ (forall e, In e full
                  <-> nth_error commits (idx e) = Some (commit e)
                      /\ budget < duration (commit e))
    /\ NoDup (map idx full)
    /\ StronglySorted jankOrder full.
Proof.
  pose (janky := filter (fun c => gt (duration (commit c)) budget)
                        (withIndex 0 commits)).
  assert (StronglySorted (fun a b => (idx a < idx b)%nat) janky) as Hpos
      by apply filter_sorted, withIndex_sorted.
  exists (sort (fun a b => duration (commit b) - duration (commit a)) janky).
  split; [reflexivity|]. split; [apply firstn_le_length|]. split; [|split].
  - intros e. subst janky.
    rewrite sort_In, filter_In, withIndex_In, gt_true, Nat.sub_0_r.
    intuition lia.
  - eapply Permutation_NoDup; [|apply sorted_idx_NoDup, Hpos].
    apply Permutation_map, Permutation_sym, sort_perm.
  - eapply StronglySorted_weaken;
      [|apply sort_stable
          with (key := fun e => - duration (commit e))
               (prec := fun a b => (idx a < idx b)%nat)].
    + intros a b [H|[H1 H2]]; [left | right].
      * apply Qopp_lt_iff, H.
      * split; [apply Qopp_eq_iff, H1 | exact H2].
    + intros a b. rewrite Qminus_le_0, Qopp_le_iff. reflexivity.
    + exact Hpos.
Qed.

(** The table of the commits of durations 20, 5, 30 at a budget of 16.7:
    30 then 20, with positions 2 and 0. *)
Example jankyCommits_three :
  map (fun e => (duration (commit e), idx e))
      (jankyCommits (map commitOf [20; 5; 30]) (budgetOf Hz60))
  = [(30, 2%nat); (20, 0%nat)].
Proof. reflexivity. Qed.

(** ** Presence of the statistics *)

(** C3.  [stats] over an empty commit sequence is [null], and over a
    non-empty one it is a statistics object that counts all its commits; so
    the result is absent exactly when there is no commit, and there is no
    present object with a zero total.  A panel without profile has no
    statistics either. *)
Theorem aggregate_absent_iff_empty
    (commits : list Commit) (budget : Q) (profile : option ProfilerJSON) :
  aggregate [] budget profile = None
  /\ (forall c r, exists st,
         aggregate (c :: r) budget profile = Some st
         /\ total st = S (List.length r))
  /\ (aggregate commits budget profile = None <-> commits = [])
  /\ (forall st, aggregate commits budget profile = Some st -> (0 < total st)%nat)
  /\ (forall hz, stats None hz = None).
Proof.
  split; [reflexivity|].
  split; [intros c r; eexists; split; reflexivity|].
  split; [|split].
  - destruct commits; split; intro H; try reflexivity; discriminate.
  - intros st H. destruct commits as [|c r]; [discriminate|].
    injection H as <-. simpl. lia.
  - reflexivity.
Qed.

(** ** Jank count and jank rate *)





(** ** Commits per minute *)





(** ** Suggestions *)

Lemma pushIf_app (c : bool) (s : string) (items : list string) :
  pushIf c s items = (items ++ (if c then [s] else []))%list.
Proof. destruct c; simpl; [reflexivity | symmetry; apply app_nil_r]. Qed.

(** The list of suggestions is the triggered messages in rule order, or the
    fallback alone when there is none. *)
Lemma Suggestions_rules (fmt : NumberFormat) (st : Stats) (budget : Q)
    (metrics : option Metrics) :
  Suggestions fmt st budget metrics
  = match triggered (rules fmt st budget metrics) with
    | [] => [msgHealthy]
    | items => items
    end.
Proof.
  unfold Suggestions, triggered, rules.
  destruct (20 <? jankRate st)%Z;
    destruct (optGt (p95 st) budget);
    destruct (gt (or_zero (passiveEffectDuration (worst st))) (budget * (1 # 2)));
    destruct (gt (avg st) (budget * (6 # 10)));
    destruct (some _ (topUpdaters st)) eqn:E5; unfold some in E5; rewrite E5;
    destruct metrics as [[[f|] stall]|]; cbn [worstFps stallTotalMs nullish];
    try destruct (Qle_bool 50 f);
    destruct (gt _ 200);
    destruct (culpritsByDuration st) as [|[name w] cs];
    reflexivity.
Qed.

Lemma triggered_In (rs : list (bool * string)) (s : string) :
  In s (triggered rs) <-> In (true, s) rs.
Proof.
  unfold triggered. rewrite in_map_iff. split.
  - intros ([b m] & <- & H). apply filter_In in H. simpl in H.
    destruct H as [H ->]. exact H.
  - intros H. exists (true, s). split; [reflexivity|].
    apply filter_In. auto.
Qed.

Lemma triggered_nil (rs : list (bool * string)) :
  triggered rs = [] <-> forallb (fun r => negb (fst r)) rs = true.
Proof.
  unfold triggered. induction rs as [|[b m] r IH]; simpl.
  - tauto.
  - destruct b; simpl; [split; discriminate | exact IH].
Qed.

(** No rule contributes the fallback message. *)
Lemma rules_not_healthy (fmt : NumberFormat) (st : Stats) (budget : Q)
    (metrics : option Metrics) (b : bool) :
  ~ In (b, msgHealthy) (rules fmt st budget metrics).
Proof.
  unfold rules. simpl.
  intros [H|[H|[H|[H|[H|[H|[H|[H|[]]]]]]]]]; discriminate H.
Qed.

(** C4.  The list of suggestions is the messages of the rules whose
    predicate holds, in the order of the rules (1 to 8), when there is at
    least one, and the fallback alone otherwise; so the fallback is in the
    list if and only if no rule predicate holds, and then it is the only
    element. *)
Theorem fallback_iff_no_rule (fmt : NumberFormat) (st : Stats) (budget : Q)
    (metrics : option Metrics) :
  let items := Suggestions fmt st budget metrics in
  let rs := rules fmt st budget metrics in
  let none := forallb (fun r => negb (fst r)) rs in
  items = (if none then [msgHealthy] else triggered rs)
  /\ (In msgHealthy items <-> none = true)
  /\ (In msgHealthy items -> items = [msgHealthy])
  /\ List.length rs = 8%nat.
Proof.
  intros items rs none. subst items.
  rewrite Suggestions_rules. fold rs.
  pose proof (triggered_nil rs) as Hnil. fold none in Hnil.
  assert (~ In msgHealthy (triggered rs)) as Hno.
  { intros H. apply triggered_In in H. exact (rules_not_healthy _ _ _ _ _ H). }
  destruct (triggered rs) as [|s l] eqn:E.
  - assert (none = true) as -> by (apply Hnil; reflexivity).
    repeat split; auto. left. reflexivity.
  - assert (none = false) as ->.
    { destruct none; [|reflexivity].
      destruct Hnil as [_ Hnil]. discriminate (Hnil eq_refl). }
    repeat split; try contradiction; discriminate.
Qed.

(** ** The anonymous-updaters rule *)

Lemma In_firstn {A : Type} (n : nat) (l : list A) (x : A) :
  In x (firstn n l) -> In x l.
Proof.
  revert l. induction n as [|n IH]; intros [|a r]; simpl; try tauto.
  intros [H|H]; auto.
Qed.

Lemma aggregate_topUpdaters (commits : list Commit) (budget : Q)
    (profile : option ProfilerJSON) (st : Stats) :
  aggregate commits budget profile = Some st ->
  topUpdaters st
  = slice0 8 (sort (fun a b => inject_Z (snd b - snd a))
                   (filter named (a_updaterCounts (loop budget commits)))).
Proof.
  destruct commits as [|c0 r]; [discriminate|].
  intros H. injection H as <-. reflexivity.
Qed.

(** The top render-count ranking holds no entry with the sentinel name. *)
Lemma topUpdaters_named (commits : list Commit) (budget : Q)
    (profile : option ProfilerJSON) (st : Stats) :
  aggregate commits budget profile = Some st ->
  forall e, In e (topUpdaters st) -> String.eqb (fst e) anonymous = false.
Proof.
  intros H e He. rewrite (aggregate_topUpdaters _ _ _ _ H) in He.
  unfold slice0 in He.
  apply In_firstn, sort_In, filter_In in He. destruct He as [_ He].
  unfold named in He. apply andb_true_iff in He. destruct He as [_ He].
  apply negb_true_iff in He. exact He.
Qed.

(** C10.  Whatever statistics [stats] computes, and whatever budget and live
    metrics are passed along, the list of suggestions does not contain the
    anonymous-updaters message: the ranking the rule inspects has had the
    entries named "(anonymous)" filtered out. *)
Theorem anonymous_rule_never_fires (fmt : NumberFormat)
    (commits : list Commit) (budget : Q) (profile : option ProfilerJSON)
    (st : Stats) (budget' : Q) (metrics : option Metrics) :
  aggregate commits budget profile = Some st ->
  existsb (fun e => String.eqb (fst e) anonymous) (topUpdaters st) = false
  /\ ~ In msgAnonymous (Suggestions fmt st budget' metrics).
Proof.
  intros Hst.
  assert (existsb (fun e => String.eqb (fst e) anonymous) (topUpdaters st) = false)
    as Hrule.
  { destruct (existsb _ _) eqn:E; [|reflexivity].
    apply existsb_exists in E. destruct E as (e & He & Heq).
    rewrite (topUpdaters_named _ _ _ _ Hst e He) in Heq. discriminate. }
  split; [exact Hrule|].
  rewrite Suggestions_rules.
  assert (~ In msgAnonymous (triggered (rules fmt st budget' metrics))) as Hno.
  { intros H. apply triggered_In in H. unfold rules in H. simpl in H.
    destruct H as [H|[H|[H|[H|[H|[H|[H|[H|[]]]]]]]]]; try discriminate H.
    injection H as H. simpl in Hrule. congruence. }
  destruct (triggered _) as [|s l].
  - intros [H|[]]. discriminate H.
  - exact Hno.
Qed.

Lemma anonymous_rule_never_fires_witness :
  exists st,
    aggregate twoCommits (167 # 10) None = Some st
    /\ topUpdaters st = [("Foo"%string, 2%Z)]
    /\ ~ In msgAnonymous (Suggestions plainFormat st (167 # 10) None).
Proof.
  eexists. split; [reflexivity|]. split; [reflexivity|].
  exact (proj2 (anonymous_rule_never_fires plainFormat twoCommits (167 # 10) None _
                  (167 # 10) None eq_refl)).
Defined.

(** ** The live session *)

Lemma onSamples_stall (samples : list FpsTick) (st : PanelState) :
  sessionStallTotalMs (onSamples samples st)
  == sessionStallTotalMs st + total_of (map jsStallsMs samples).
Proof.
  unfold onSamples. revert st.
  induction samples as [|d r IH]; intros st; simpl.
  - rewrite Qplus_0_r. reflexivity.
  - rewrite IH. cbn [sessionStallTotalMs onFpsTick].
    rewrite or_zero_some, Qplus_assoc. reflexivity.
Qed.

Lemma total_of_clamped (samples : list FpsTick) :
  Forall (fun d => 0 <= jsStallsMs d) samples ->
  total_of (clampedStalls samples) == total_of (map jsStallsMs samples).
Proof.
  induction 1 as [|d r Hd _ IH]; simpl.
  - reflexivity.
  - rewrite IH, (Q.max_r _ _ Hd). reflexivity.
Qed.

(** Once there is a worst fps, further samples keep it the minimum of what
    has been seen: it never rises, it stays below every new sample, and it
    is the old value or one of the new samples. *)
Lemma onSamples_worst_from (samples : list FpsTick) (st : PanelState) (w : Q) :
  sessionWorstFps st = Some w ->
  exists m, sessionWorstFps (onSamples samples st) = Some m
            /\ m <= w
            /\ (forall d, In d samples -> m <= tick_fps d)
            /\ (m = w \/ exists d, In d samples /\ m = tick_fps d).
Proof.
  unfold onSamples. revert st w.
  induction samples as [|d r IH]; intros st w Hw; simpl.
  - exists w. repeat split; auto using Qle_refl. intros d [].
  - destruct (IH (onFpsTick d st) (Qmin w (tick_fps d))) as (m & Hm & Hle & Hall & Hin).
    { simpl. rewrite Hw. reflexivity. }
    exists m. split; [exact Hm|]. split; [|split].
    + eapply Qle_trans; [exact Hle | apply Q.le_min_l].
    + intros d' [<-|Hd']; [|auto].
      eapply Qle_trans; [exact Hle | apply Q.le_min_r].
    + destruct Hin as [->|(d' & Hd' & ->)].
      * unfold Qmin, GenericMinMax.gmin.
        destruct (w ?= tick_fps d); eauto.
      * right. eauto.
Qed.

(** C5, as the specification states it, fails: the source adds the stall of
    a sample as it comes and does not clamp it at 0.  After one sample with a
    stall of -5 the total is -5, not [max(0, -5)]. *)
Lemma stallTotal_is_not_clamped :
  let samples := [ {| tick_fps := 60; jsStallsMs := -5 |} ] in
  let st := onSamples samples (initialState true) in
  sessionStallTotalMs st == -5
  /\ ~ sessionStallTotalMs st == total_of (clampedStalls samples).
Proof.
  split; [reflexivity | discriminate].
Qed.

(** C5, amended.  From a state whose session accumulators are reset (the
    initial state, or the state a capture starts in), after any run of
    samples: [sessionWorstFps] is [null] if there was no sample and the
    minimum of the fps values otherwise; [sessionStallTotalMs] is the sum of
    the stalls of the samples, which is the sum of [max(0, stallMs)] as soon
    as no stall is negative.  The samples fps 60, 45, 70 with stalls 10, 300,
    5 give a worst fps of 45 and a stall total of 315. *)
Theorem session_accumulators (samples : list FpsTick) (st0 : PanelState) :
  sessionWorstFps st0 = None ->
  sessionStallTotalMs st0 == 0 ->
  let st := onSamples samples st0 in
  (samples = [] -> sessionWorstFps st = None)
  /\ (samples <> [] -> exists m, sessionWorstFps st = Some m /\ isMinFps samples m)
  /\ sessionStallTotalMs st == total_of (map jsStallsMs samples)
  /\ (Forall (fun d => 0 <= jsStallsMs d) samples ->
      sessionStallTotalMs st == total_of (clampedStalls samples))
  /\ (samples = threeSamples ->
      sessionWorstFps st = Some 45 /\ sessionStallTotalMs st == 315).
Proof.
  intros Hw Hs st.
  assert (sessionStallTotalMs st == total_of (map jsStallsMs samples)) as Hsum.
  { subst st. rewrite onSamples_stall, Hs, Qplus_0_l. reflexivity. }
  assert (samples <> [] ->
          exists m, sessionWorstFps st = Some m /\ isMinFps samples m) as Hmin.
  { intros Hne. destruct samples as [|d r]; [congruence|].
    destruct (onSamples_worst_from r (onFpsTick d st0) (tick_fps d))
      as (m & Hm & Hle & Hall & Hin).
    { simpl. rewrite Hw. reflexivity. }
    exists m. split; [exact Hm|]. split.
    - destruct Hin as [->|(d' & Hd' & ->)]; [exists d | exists d']; simpl; auto.
    - intros d' [<-|Hd']; auto. }
  split; [intros ->; exact Hw|].
  split; [exact Hmin|].
  split; [exact Hsum|].
  split.
  - intros Hpos. rewrite Hsum. symmetry. apply total_of_clamped, Hpos.
  - intros E. split.
    + subst st. rewrite E. unfold onSamples. simpl. rewrite Hw. reflexivity.
    + rewrite Hsum, E. reflexivity.
Qed.

Lemma session_accumulators_witness :
  sessionWorstFps (initialState true) = None
  /\ sessionStallTotalMs (initialState true) == 0
  /\ sessionWorstFps (onSamples threeSamples (initialState true)) = Some 45
  /\ sessionStallTotalMs (onSamples threeSamples (initialState true)) == 315.
Proof.
  assert (sessionWorstFps (initialState true) = None) as H1 by reflexivity.
  assert (sessionStallTotalMs (initialState true) == 0) as H2 by reflexivity.
  split; [exact H1|]. split; [exact H2|].
  exact (proj2 (proj2 (proj2 (proj2
           (session_accumulators threeSamples (initialState true) H1 H2)))) eq_refl).
Defined.

(** The capture starts with the session accumulators reset. *)
Lemma toggleCapture_start_resets (data : option ProfilerJSON) (st : PanelState) :
  client st = true -> isCapturing st = false ->
  sessionWorstFps (fst (toggleCapture data st)) = None
  /\ sessionStallTotalMs (fst (toggleCapture data st)) = 0
  /\ snd (toggleCapture data st) = [StartProfiler (hz st)].
Proof.
  intros Hc Hi. unfold toggleCapture. rewrite Hc, Hi. simpl. auto.
Qed.

(** ** Clear *)

(** What the Clear button does reset. *)
Lemma onClear_clears (st : PanelState) :
  client st = true ->
  let st' := fst (onClear st) in
  profile st' = None /\ commitsOf (profile st') = []
  /\ stats (profile st') (hz st') = None
  /\ fps st' = None /\ stallsMs st' = None
  /\ isCapturing st' = false /\ hermesStatus st' = None
  /\ snd (onClear st) = [ResetProfiler].
Proof.
  intros Hc. unfold onClear. rewrite Hc. simpl. repeat split.
Qed.

(** C6: the source at a state that has seen samples.  The Clear handler
    leaves the two session accumulators as they are, in every state; after
    the three samples of the specification and a Clear, the worst fps is
    still 45 and the stall total still 315, while the profile and the live
    readouts are gone. *)
Theorem onClear_keeps_session_accumulators :
  (forall st,
      sessionWorstFps (fst (onClear st)) = sessionWorstFps st
      /\ sessionStallTotalMs (fst (onClear st)) = sessionStallTotalMs st)
  /\ (let st := onSamples threeSamples (initialState true) in
      let st' := fst (onClear st) in
      profile st' = None /\ fps st' = None /\ stallsMs st' = None
      /\ sessionWorstFps st' = Some 45
      /\ sessionStallTotalMs st' == 315
      /\ sessionWorstFps st' <> sessionWorstFps (initialState true)
      /\ ~ sessionStallTotalMs st' == sessionStallTotalMs (initialState true)).
Proof.
  split.
  - intros st. unfold onClear. destruct (client st); simpl; auto.
  - simpl. repeat split; discriminate.
Qed.

(** What the kept accumulators lead to: a profile that arrives after the
    Clear is analysed with the worst fps and the stall total of the session
    that was cleared. *)
Example stale_metrics_after_clear :
  let st := onProfilerExport (documentOf [commitOf 1] 0 60000)
              (fst (onClear (onSamples threeSamples (initialState true)))) in
  exists s,
    stats (profile st) (hz st) = Some s
    /\ Suggestions plainFormat s (budgetOf (hz st)) (Some (metricsOf st))
       = [msgFps plainFormat 45; msgStalls plainFormat (Some 315)].
Proof. eexists. split; reflexivity. Qed.

(** ** [parseCommits] on arbitrary documents *)

Lemma optMember_ok (v : Dyn.JsValue) (name : string) :
  exists x, Dyn.optMember v name = Dyn.Ok x.
Proof. destruct v; eexists; reflexivity. Qed.

Lemma at0_ok (v : Dyn.JsValue) :
  Dyn.isNullish v = false -> exists x, Dyn.at0 v = Dyn.Ok x.
Proof. destruct v; simpl; intros H; try discriminate; eexists; reflexivity. Qed.

Lemma orElse_not_nullish (a : Dyn.JsValue) :
  Dyn.isNullish (Dyn.orElse a (Dyn.JArr [])) = false.
Proof. destruct a; reflexivity. Qed.

(** C7.  [parseCommits] returns a commit sequence on every value and never
    raises.  The sequence is empty when [dataForRoots] is absent, when the
    first root has no [commitData] and when that [commitData] is not an
    array; when [dataForRoots] is an array, the result is that of the
    document reduced to its first root, and it is the first root's
    [commitData] when that is an array. *)
Theorem parseCommits_never_fails (json : Dyn.JsValue) :
  (exists cs, Dyn.parseCommits json = Dyn.Ok cs)
  /\ (forall d, Dyn.optMember json "dataForRoots" = Dyn.Ok d ->
                Dyn.isNullish d = true ->
                Dyn.parseCommits json = Dyn.Ok [])
  /\ (forall r0 rest,
         Dyn.optMember json "dataForRoots" = Dyn.Ok (Dyn.JArr (r0 :: rest)) ->
         Dyn.parseCommits json
         = Dyn.parseCommits (Dyn.JObj [("dataForRoots"%string, Dyn.JArr [r0])])
         /\ forall c, Dyn.optMember r0 "commitData" = Dyn.Ok c ->
              (Dyn.isNullish c = true -> Dyn.parseCommits json = Dyn.Ok [])
              /\ (forall cs, c = Dyn.JArr cs -> Dyn.parseCommits json = Dyn.Ok cs)
              /\ ((forall cs, c <> Dyn.JArr cs) -> Dyn.parseCommits json = Dyn.Ok [])).
Proof.
  split; [|split].
  - unfold Dyn.parseCommits.
    destruct (optMember_ok json "dataForRoots") as [d ->]. cbn [Dyn.bind].
    destruct (at0_ok _ (orElse_not_nullish d)) as [first ->]. cbn [Dyn.bind].
    destruct (optMember_ok first "commitData") as [c ->]. cbn [Dyn.bind].
    eauto.
  - intros d Hd Hn. unfold Dyn.parseCommits. rewrite Hd. cbn [Dyn.bind].
    destruct d; try discriminate Hn; reflexivity.
  - intros r0 rest Hd. unfold Dyn.parseCommits at 1. rewrite Hd.
    split; [reflexivity|].
    intros c Hc. unfold Dyn.parseCommits. rewrite Hd. cbn. rewrite Hc. cbn.
    split; [|split].
    + intros Hn. destruct c; try discriminate Hn; reflexivity.
    + intros cs ->. reflexivity.
    + intros Hna. destruct c; try reflexivity. exfalso. exact (Hna _ eq_refl).
Qed.

Lemma parseCommits_never_fails_witness :
  Dyn.parseCommits twoRoots
  = Dyn.Ok [ Dyn.JObj [ ("duration"%string, Dyn.JNum 20) ] ]
  /\ Dyn.parseCommits twoRoots
     = Dyn.parseCommits
         (Dyn.JObj [ ("dataForRoots"%string,
                      Dyn.JArr [ Dyn.JObj [ ("commitData"%string,
                                  Dyn.JArr [ Dyn.JObj [ ("duration"%string, Dyn.JNum 20) ] ]) ] ]) ]).
Proof.
  destruct (proj2 (proj2 (parseCommits_never_fails twoRoots)) _ _ eq_refl)
    as [Hfirst Hc].
  split; [|exact Hfirst].
  exact (proj1 (proj2 (Hc _ eq_refl)) _ eq_refl).
Defined.

(** On a document of the declared type the two models of [parseCommits]
    agree. *)
Lemma parseCommits_typed (p : ProfilerJSON) :
  Dyn.parseCommits (Dyn.ofProfile p) = Dyn.Ok (map Dyn.ofCommit (parseCommits p)).
Proof.
  destruct p as [[[|[[cs|] [dn|]] rest]|] [t0|] [t1|] [v|]]; reflexivity.
Qed.

(** * Further properties of the analysis *)


(** ** The worst commit *)

Lemma FirstMax_single (c : Commit) : FirstMax [c] c.
Proof.
  exists 0%nat. split; [reflexivity|]. split.
  - intros c' [<-|[]]. apply Qle_refl.
  - intros j c' Hj. lia.
Qed.

Lemma FirstMax_snoc (pre : list Commit) (w c : Commit) :
  FirstMax pre w ->
  FirstMax (pre ++ [c]) (if gt (duration c) (duration w) then c else w).
Proof.
  intros (i & Hi & Hmax & Hfirst).
  assert (i < List.length pre)%nat as Hlt by (apply nth_error_Some; congruence).
  destruct (gt (duration c) (duration w)) eqn:E.
  - apply gt_true in E. exists (List.length pre). split; [|split].
    + rewrite nth_error_app2, Nat.sub_diag by lia. reflexivity.
    + intros c' Hc'. apply in_app_or in Hc'. destruct Hc' as [Hc'|[<-|[]]].
      * apply Qlt_le_weak. eapply Qle_lt_trans; [apply Hmax, Hc' | exact E].
      * apply Qle_refl.
    + intros j c' Hj Hc'. rewrite nth_error_app1 in Hc' by exact Hj.
      eapply Qle_lt_trans; [|exact E].
      apply Hmax. eapply nth_error_In, Hc'.
  - apply gt_false in E. exists i. split; [|split].
    + rewrite nth_error_app1 by exact Hlt. exact Hi.
    + intros c' Hc'. apply in_app_or in Hc'. destruct Hc' as [Hc'|[<-|[]]]; auto.
    + intros j c' Hj Hc'. rewrite nth_error_app1 in Hc' by lia. eauto.
Qed.

Lemma loop_worst_FirstMax (budget : Q) (cs pre : list Commit) (acc : Acc) (w : Commit) :
  a_worst acc = Some w -> FirstMax pre w ->
  exists w', a_worst (fold_left (stepCommit budget) cs acc) = Some w'
             /\ FirstMax (pre ++ cs) w'.
Proof.
  revert pre acc w. induction cs as [|c r IH]; intros pre acc w Hw HF; simpl.
  - exists w. rewrite app_nil_r. auto.
  - destruct (IH (pre ++ [c]) (stepCommit budget acc c)
                (if gt (duration c) (duration w) then c else w)) as (w' & Hw' & HF').
    + simpl. rewrite Hw. destruct (gt _ _); reflexivity.
    + apply FirstMax_snoc, HF.
    + exists w'. rewrite <- app_assoc in HF'. auto.
Qed.

Lemma aggregate_worst (commits : list Commit) (budget : Q)
    (profile : option ProfilerJSON) (st : Stats) :
  aggregate commits budget profile = Some st -> FirstMax commits (worst st).
Proof.
  destruct commits as [|c0 r]; [discriminate|].
  intros H. injection H as <-. cbn [worst].
  destruct (loop_worst_FirstMax budget r [c0] (stepCommit budget acc0 c0) c0)
    as (w' & Hw' & HF).
  - reflexivity.
  - apply FirstMax_single.
  - unfold loop. simpl fold_left. rewrite Hw'. exact HF.
Qed.

(** X1.  The worst commit of the statistics is a commit of the profile, no
    commit lasts longer, and every commit before it is strictly shorter:
    among commits of the greatest duration the first one is kept. *)
Theorem worst_is_first_longest
    (commits : list Commit) (budget : Q) (profile : option ProfilerJSON) :
  commits <> [] ->
  exists st i,
    aggregate commits budget profile = Some st
    /\ nth_error commits i = Some (worst st)
    /\ (forall c, In c commits -> duration c <= duration (worst st))
    /\ (forall j c, (j < i)%nat -> nth_error commits j = Some c ->
                    duration c < duration (worst st)).
Proof.
  intros Hne. destruct (aggregate_some commits budget profile Hne) as [st Hst].
  destruct (aggregate_worst _ _ _ _ Hst) as (i & H1 & H2 & H3).
  exists st, i. auto.
Qed.

Lemma worst_is_first_longest_witness :
  map commitOf [20; 30; 5; 30] <> []
  /\ exists st,
       aggregate (map commitOf [20; 30; 5; 30]) (167 # 10) None = Some st
       /\ nth_error (map commitOf [20; 30; 5; 30]) 1 = Some (worst st).
Proof.
  assert (map commitOf [20; 30; 5; 30] <> []) as H by discriminate.
  split; [exact H|].
  destruct (worst_is_first_longest (map commitOf [20; 30; 5; 30]) (167 # 10) None H)
    as (st & i & Hst & Hi & _).
  exists st. split; [exact Hst|].
  injection Hst as <-. reflexivity.
Defined.

(** ** Passive effects *)

Lemma loop_maxPassive_from (budget : Q) (cs : list Commit) (acc : Acc) :
  0 <= a_maxPassive acc ->
  let m := a_maxPassive (fold_left (stepCommit budget) cs acc) in
  a_maxPassive acc <= m
  /\ (forall c, In c cs -> passiveOf c <= m)
  /\ (m = a_maxPassive acc
      \/ exists c, In c cs /\ passiveEffectDuration c = Some m).
Proof.
  revert acc. induction cs as [|c r IH]; intros acc H0; simpl.
  - split; [apply Qle_refl|]. split; [intros c []|]. left. reflexivity.
  - set (acc' := stepCommit budget acc c).
    assert (a_maxPassive acc <= a_maxPassive acc'
            /\ passiveOf c <= a_maxPassive acc'
            /\ (a_maxPassive acc' = a_maxPassive acc
                \/ passiveEffectDuration c = Some (a_maxPassive acc'))) as (Hle & Hc & Hat).
    { subst acc'. cbn [a_maxPassive stepCommit]. fold (passiveOf c).
      destruct (gt (passiveOf c) (a_maxPassive acc)) eqn:E.
      - apply gt_true in E. split; [apply Qlt_le_weak, E|].
        split; [apply Qle_refl|]. right.
        unfold passiveOf in *. destruct (passiveEffectDuration c) as [v|]; [reflexivity|].
        simpl in E. exfalso. exact (Qlt_not_le _ _ E H0).
      - apply gt_false in E. split; [apply Qle_refl|]. split; [exact E|].
        left. reflexivity. }
    destruct (IH acc' (Qle_trans _ _ _ H0 Hle)) as (H1 & H2 & H3).
    split; [eapply Qle_trans; eassumption|]. split.
    + intros c' [<-|Hc']; [eapply Qle_trans; eassumption | auto].
    + destruct H3 as [H3|(c' & Hc' & H3)].
      * destruct Hat as [Hat|Hat].
        -- left. congruence.
        -- right. exists c. split; [left; reflexivity|]. rewrite H3. exact Hat.
      * right. exists c'. auto.
Qed.

(** X2.  The greatest passive-effect duration of the statistics is never
    negative and bounds the passive-effect duration of every commit (a
    missing one counting as 0); it is 0 or the passive-effect duration of
    some commit. *)
Theorem maxPassive_is_greatest
    (commits : list Commit) (budget : Q) (profile : option ProfilerJSON) :
  commits <> [] ->
  exists st,
    aggregate commits budget profile = Some st
    /\ 0 <= maxPassive st
    /\ (forall c, In c commits -> passiveOf c <= maxPassive st)
    /\ (maxPassive st = 0
        \/ exists c, In c commits /\ passiveEffectDuration c = Some (maxPassive st)).
Proof.
  intros Hne. destruct commits as [|c0 r]; [congruence|].
  eexists. split; [reflexivity|]. cbn [maxPassive].
  destruct (loop_maxPassive_from budget (c0 :: r) acc0 (Qle_refl 0)) as (H1 & H2 & H3).
  unfold loop. auto.
Qed.

Lemma maxPassive_is_greatest_witness :
  exists st,
    aggregate [commitOf 20] (167 # 10) None = Some st /\ maxPassive st = 0.
Proof.
  destruct (maxPassive_is_greatest [commitOf 20] (167 # 10) None ltac:(discriminate))
    as (st & Hst & _).
  exists st. split; [exact Hst|]. injection Hst as <-. reflexivity.
Defined.

(** ** Effect-heavy and passive-heavy shares *)





(** ** Average, median and p95 among the durations *)




Lemma sorted_nth_le (s : list Q) :
  StronglySorted Qle s ->
  forall i j x y, (i <= j)%nat -> nth_error s i = Some x -> nth_error s j = Some y ->
                  x <= y.
Proof.
  induction 1 as [|a r Hr IH Ha]; intros i j x y Hij Hi Hj.
  - destruct i; discriminate.
  - destruct i as [|i], j as [|j]; simpl in *; try lia.
    + injection Hi as <-. injection Hj as <-. apply Qle_refl.
    + injection Hi as <-. rewrite Forall_forall in Ha.
      apply Ha. eapply nth_error_In, Hj.
    + eapply IH; [|eassumption|eassumption]. lia.
Qed.



(** X5.  With one commit, or with three or more, the median is at most
    p95.  With exactly two commits it is the other way round: p95 is the
    element at index [floor(0.95)] = 0 of the sorted durations, the shorter
    of the two, and the median is their mean. *)
Theorem median_le_p95_except_two
    (commits : list Commit) (budget : Q) (profile : option ProfilerJSON) :
  commits <> [] ->
  exists st m p,
    aggregate commits budget profile = Some st
    /\ median st = Some m /\ p95 st = Some p
    /\ (List.length commits <> 2%nat -> m <= p)
    /\ (List.length commits = 2%nat ->
        p <= m /\ forall c, In c commits -> p <= duration c).
Proof.
  intros Hne.
  destruct (aggregate_some commits budget profile Hne) as [st Hst].
  destruct (aggregate_insights _ _ _ _ Hst) as (Hm & Hp & _).
  pose (ds := map duration commits).
  pose (s := sort (fun a b => a - b) ds).
  assert (ds <> []) as Hds by (subst ds; destruct commits; [congruence | discriminate]).
  assert (Permutation s ds) as HP by apply sort_perm.
  pose proof (sort_ascending ds) as Hs. fold s in Hs.
  destruct (keyInsights_standard ds s Hds HP Hs) as (m & p & Em & Ep & HM & (y & Hy & Hpy)).
  assert (List.length s = List.length commits) as Hlen.
  { subst s ds. rewrite sort_length, length_map. reflexivity. }
  assert (1 <= List.length commits)%nat as Hn
      by (destruct commits; [congruence | simpl; lia]).
  exists st, m, p. rewrite Hm, Hp.
  split; [exact Hst|]. split; [exact Em|]. split; [exact Ep|].
  unfold isMedianOf in HM. rewrite Hlen in HM, Hy.
  rewrite p95Index_div in Hy.
  set (n := List.length commits) in *.
  destruct (Nat.odd n) eqn:Odd.
  - destruct HM as (x & Hx & Hmx).
    assert (n <> 2%nat) as Hn2 by (intros E; rewrite E in Odd; discriminate).
    split; [|intros E; contradiction].
    intros _. rewrite Hmx, Hpy.
    eapply (sorted_nth_le s Hs); [|exact Hx|exact Hy]. lia.
  - destruct HM as (a & b & Ha & Hb & Hmab).
    assert (a <= b) as Hab by (eapply (sorted_nth_le s Hs); [|exact Ha|exact Hb]; lia).
    assert (Nat.even n = true) as Ev by (rewrite <- Nat.negb_odd, Odd; reflexivity).
    apply Nat.even_spec in Ev. destruct Ev as [k Hk].
    unfold Qdiv in Hmab. change (/ 2) with (1 # 2) in Hmab.
    split.
    + intros Hn2.
      assert (b <= y) as Hby by (eapply (sorted_nth_le s Hs); [|exact Hb|exact Hy]; lia).
      lra.
    + intros E. rewrite E in Ha, Hy.
      change (2 / 2 - 1)%nat with 0%nat in Ha.
      change (19 * (2 - 1) / 20)%nat with 0%nat in Hy.
      assert (y = a) as -> by congruence.
      split; [lra|].
      intros c Hc.
      assert (In (duration c) s) as Hin.
      { apply (Permutation_in _ (Permutation_sym HP)). subst ds. apply in_map, Hc. }
      apply In_nth_error in Hin. destruct Hin as [j Hj].
      rewrite Hpy. eapply (sorted_nth_le s Hs); [|exact Ha|exact Hj]. lia.
Qed.

Lemma median_le_p95_except_two_witness :
  exists st m p,
    aggregate (map commitOf [30; 10]) (167 # 10) None = Some st
    /\ median st = Some m /\ p95 st = Some p
    /\ p <= m /\ p <= 10.
Proof.
  destruct (median_le_p95_except_two (map commitOf [30; 10]) (167 # 10) None
              ltac:(discriminate))
    as (st & m & p & Hst & Hm & Hp & _ & H2).
  destruct (H2 eq_refl) as [Hpm Hall].
  exists st, m, p. repeat split; auto.
  apply (Hall (commitOf 10)). right. left. reflexivity.
Defined.

(** ** The maps of updater counts and updater time *)

Section MapFacts.
Context {V : Type}.
Implicit Types (m : list (string * V)) (k : string) (v : V).

Lemma map_get_set_same m k v : map_get (map_set m k v) k = Some v.
Proof.
  induction m as [|[k' v'] r IH]; simpl.
  - rewrite String.eqb_refl. reflexivity.
  - destruct (String.eqb k' k) eqn:E; simpl; rewrite E; auto.
Qed.

Lemma map_get_set_other m k k' v :
  k <> k' -> map_get (map_set m k v) k' = map_get m k'.
Proof.
  intros Hne. induction m as [|[k0 v0] r IH]; simpl.
  - apply String.eqb_neq in Hne. rewrite Hne. reflexivity.
  - destruct (String.eqb k0 k) eqn:E; simpl.
    + apply String.eqb_eq in E. subst k0.
      rewrite (proj2 (String.eqb_neq _ _) Hne). reflexivity.
    + rewrite IH. reflexivity.
Qed.

Lemma map_get_none m k : map_get m k = None <-> ~ In k (map fst m).
Proof.
  induction m as [|[k' v'] r IH]; simpl.
  - tauto.
  - destruct (String.eqb k' k) eqn:E.
    + apply String.eqb_eq in E. split; [discriminate | intros H; tauto].
    + apply String.eqb_neq in E. rewrite IH. tauto.
Qed.

Lemma map_set_keys m k v :
  map fst (map_set m k v)
  = match map_get m k with
    | Some _ => map fst m
    | None => (map fst m ++ [k])%list
    end.
Proof.
  induction m as [|[k' v'] r IH]; simpl.
  - reflexivity.
  - destruct (String.eqb k' k) eqn:E; simpl; [reflexivity|].
    rewrite IH. destruct (map_get r k); reflexivity.
Qed.

Lemma In_map_get m k v :
  NoDup (map fst m) -> (In (k, v) m <-> map_get m k = Some v).
Proof.
  induction m as [|[k' v'] r IH]; simpl; intros Hnd.
  - split; [tauto | discriminate].
  - inversion Hnd as [|? ? Hnotin Hnd']; subst.
    destruct (String.eqb k' k) eqn:E.
    + apply String.eqb_eq in E. subst k'. split.
      * intros [H|H]; [congruence|].
        exfalso. apply Hnotin. apply in_map_iff. exists (k, v). auto.
      * intros H. left. congruence.
    + apply String.eqb_neq in E. rewrite <- (IH Hnd'). split.
      * intros [H|H]; [congruence | exact H].
      * auto.
Qed.

End MapFacts.


Lemma firstSeen_NoDup (names : list string) : NoDup (firstSeen names).
Proof.
  induction names as [|x r IH]; simpl; constructor.
  - rewrite filter_In, negb_true_iff, String.eqb_neq. tauto.
  - apply NoDup_filter, IH.
Qed.

Lemma filter_filter {A : Type} (p q : A -> bool) (l : list A) :
  filter p (filter q l) = filter (fun x => q x && p x) l.
Proof.
  induction l as [|a r IH]; simpl; [reflexivity|].
  destruct (q a); simpl; [destruct (p a)|]; rewrite IH; reflexivity.
Qed.

Section TallyFacts.
Context {V W : Type}.
Variable zero : V.
Variable add : V -> W -> V.

(** The keys of the map: those it had, then the new names in the order
    they are first met. *)
Lemma tally_keys (l : list (string * W)) (m : list (string * V)) :
  map fst (fold_left (tally zero add) l m)
  = (map fst m
     ++ filter (fun k => match map_get m k with Some _ => false | None => true end)
               (firstSeen (map fst l)))%list.
Proof.
  revert m. induction l as [|[k w] r IH]; intros m; simpl.
  - symmetry. apply app_nil_r.
  - rewrite IH. set (m' := tally zero add m (k, w)).
    assert (map fst m' = match map_get m k with
                         | Some _ => map fst m
                         | None => (map fst m ++ [k])%list
                         end) as Hk
        by (subst m'; unfold tally; cbn [fst snd]; apply map_set_keys).
    assert (forall k', map_get m' k'
                       = if String.eqb k k'
                         then Some (add (nullish (map_get m k) zero) w)
                         else map_get m k') as Hg.
    { intros k'. subst m'. unfold tally. cbn [fst snd].
      destruct (String.eqb k k') eqn:Ek.
      - apply String.eqb_eq in Ek. subst k'. apply map_get_set_same.
      - apply String.eqb_neq in Ek. apply map_get_set_other, Ek. }
    rewrite Hk. cbn [map fst firstSeen filter].
    destruct (map_get m k) as [v|] eqn:E.
    + f_equal. rewrite filter_filter. apply filter_ext. intros k'. rewrite Hg.
      destruct (String.eqb k k'); reflexivity.
    + rewrite <- app_assoc. f_equal. simpl. f_equal.
      rewrite filter_filter. apply filter_ext. intros k'. rewrite Hg.
      destruct (String.eqb k k'); reflexivity.
Qed.

(** The value under a key: what the map had, with the payloads recorded
    under that key added in order. *)
Lemma tally_get (l : list (string * W)) (m : list (string * V)) (k : string) :
  map_get (fold_left (tally zero add) l m) k
  = match filter (fun o => String.eqb (fst o) k) l with
    | [] => map_get m k
    | ws => Some (fold_left add (map snd ws) (nullish (map_get m k) zero))
    end.
Proof.
  revert m. induction l as [|[k' w] r IH]; intros m; simpl.
  - reflexivity.
  - rewrite IH. unfold tally. cbn [fst snd].
    destruct (String.eqb k' k) eqn:E.
    + apply String.eqb_eq in E. subst k'. rewrite map_get_set_same. simpl.
      destruct (filter _ r); reflexivity.
    + apply String.eqb_neq in E. rewrite map_get_set_other by exact E.
      reflexivity.
Qed.

End TallyFacts.

Lemma fold_stepUpdater (d : Q) (us : list Updater)
    (mc : list (string * Z)) (mw : list (string * Q)) :
  fold_left (stepUpdater d) us (mc, mw)
  = (fold_left tallyCount (map (fun u => (updaterName u, d)) us) mc,
     fold_left tallyTime (map (fun u => (updaterName u, d)) us) mw).
Proof.
  revert mc mw. induction us as [|u r IH]; intros mc mw; simpl.
  - reflexivity.
  - unfold stepUpdater at 2. cbn [fst snd]. rewrite IH. reflexivity.
Qed.

Lemma loop_maps_from (budget : Q) (cs : list Commit) (acc : Acc) :
  a_updaterCounts (fold_left (stepCommit budget) cs acc)
  = fold_left tallyCount (occurrences cs) (a_updaterCounts acc)
  /\ a_updaterWeighted (fold_left (stepCommit budget) cs acc)
     = fold_left tallyTime (occurrences cs) (a_updaterWeighted acc).
Proof.
  revert acc. induction cs as [|c r IH]; intros acc.
  - split; reflexivity.
  - cbn [fold_left]. destruct (IH (stepCommit budget acc c)) as [-> ->].
    unfold occurrences. cbn [flat_map]. rewrite !fold_left_app.
    cbn [stepCommit a_updaterCounts a_updaterWeighted].
    rewrite fold_stepUpdater. split; reflexivity.
Qed.

(** ** Rankings: filter the named entries, sort, keep eight *)

Lemma occursBefore_sorted {V : Type} (pre : list string) (m : list (string * V)) :
  StronglySorted (fun a b => occursBefore (pre ++ map fst m) (fst a) (fst b)) m.
Proof.
  revert pre. induction m as [|a r IH]; intros pre; constructor.
  - specialize (IH (pre ++ [fst a])%list).
    simpl. rewrite <- app_assoc in IH. exact IH.
  - apply Forall_forall. intros b Hb.
    apply in_split in Hb. destruct Hb as (r1 & r2 & ->).
    exists pre, (map fst r1), (map fst r2).
    simpl. rewrite map_app. reflexivity.
Qed.

Lemma StronglySorted_app_cross {A : Type} (R : A -> A -> Prop) (l1 l2 : list A) :
  StronglySorted R (l1 ++ l2) ->
  StronglySorted R l1 /\ forall a b, In a l1 -> In b l2 -> R a b.
Proof.
  induction l1 as [|x r IH]; simpl; intros H.
  - split; [constructor | intros a b []].
  - inversion H as [|? ? Hr Hx]; subst. destruct (IH Hr) as [IH1 IH2].
    rewrite Forall_forall in Hx. split.
    + constructor; [exact IH1|]. apply Forall_forall. intros y Hy.
      apply Hx, in_or_app. left. exact Hy.
    + intros a b [<-|Ha] Hb; [|auto]. apply Hx, in_or_app. right. exact Hb.
Qed.

Lemma NoDup_firstn {A : Type} (n : nat) (l : list A) : NoDup l -> NoDup (firstn n l).
Proof.
  intros H. rewrite <- (firstn_skipn n l) in H.
  eapply NoDup_app_remove_r, H.
Qed.

Lemma filter_keeps_distinct {E K : Type} (es : list E) (keep : E -> bool) (proj : E -> K) :
  NoDup (map proj es) -> NoDup (map proj (filter keep es)).
Proof.
  induction es as [|e r IH]; simpl; intros H; [constructor|].
  inversion H as [|? ? Hnotin Hnd]; subst.
  destruct (keep e); simpl; [|auto].
  constructor; [|auto]. intros Hin. apply Hnotin.
  apply in_map_iff in Hin. destruct Hin as (x & Hx & Hin).
  apply filter_In in Hin. apply in_map_iff. exists x. tauto.
Qed.

Section Ranking.
Context {V : Type}.
Variable cmp : string * V -> string * V -> Q.
Variable key : string * V -> Q.
Variable m : list (string * V).
Hypothesis cmp_key : forall a b, cmp a b <= 0 <-> key a <= key b.
Hypothesis m_keys : NoDup (map fst m).

Lemma ranking_In (e : string * V) :
  In e (slice0 8 (sort cmp (filter named m))) -> In e m /\ named e = true.
Proof.
  intros H. apply In_firstn, sort_In, filter_In in H. exact H.
Qed.

Lemma ranking_NoDup : NoDup (map fst (slice0 8 (sort cmp (filter named m)))).
Proof.
  unfold slice0. rewrite <- firstn_map. apply NoDup_firstn.
  eapply Permutation_NoDup.
  - apply Permutation_map, Permutation_sym, sort_perm.
  - apply filter_keeps_distinct, m_keys.
Qed.

Lemma full_sorted :
  StronglySorted
    (keyThenPrec key (fun a b => occursBefore (map fst m) (fst a) (fst b)))
    (sort cmp (filter named m)).
Proof.
  apply sort_stable; [exact cmp_key|].
  apply filter_sorted. exact (occursBefore_sorted [] m).
Qed.

Lemma ranking_sorted :
  StronglySorted
    (keyThenPrec key (fun a b => occursBefore (map fst m) (fst a) (fst b)))
    (slice0 8 (sort cmp (filter named m))).
Proof.
  pose proof full_sorted as H.
  rewrite <- (firstn_skipn 8 (sort cmp (filter named m))) in H.
  apply StronglySorted_app_cross in H. exact (proj1 H).
Qed.

(** An entry that is left out is not ahead of any that is kept, and is left
    out only when eight are kept. *)
Lemma ranking_complete (e : string * V) :
  In e m -> named e = true ->
  In e (slice0 8 (sort cmp (filter named m)))
  \/ (List.length (slice0 8 (sort cmp (filter named m))) = 8%nat
      /\ forall e', In e' (slice0 8 (sort cmp (filter named m))) -> key e' <= key e).
Proof.
  intros He Hn. unfold slice0.
  set (full := sort cmp (filter named m)).
  assert (In e full) as Hfull by (apply sort_In, filter_In; auto).
  rewrite <- (firstn_skipn 8 full) in Hfull. apply in_app_or in Hfull.
  destruct Hfull as [H|H]; [left; exact H | right].
  split.
  - apply firstn_length_le.
    destruct (Nat.le_gt_cases 8 (List.length full)) as [Hl|Hl]; [exact Hl|].
    rewrite skipn_all2 in H by lia. destruct H.
  - intros e' He'. pose proof full_sorted as Hs. fold full in Hs.
    rewrite <- (firstn_skipn 8 full) in Hs.
    apply StronglySorted_app_cross in Hs.
    apply (keyThenPrec_le _ _ _ _ (proj2 Hs e' e He' H)).
Qed.

End Ranking.

(** ** Re-render hotspots and culprits *)

Lemma filter_all {A : Type} (p : A -> bool) (l : list A) :
  (forall x, p x = true) -> filter p l = l.
Proof.
  intros H. induction l as [|a r IH]; simpl; [reflexivity|].
  rewrite H, IH. reflexivity.
Qed.

Lemma loop_counts (budget : Q) (commits : list Commit) :
  a_updaterCounts (loop budget commits) = fold_left tallyCount (occurrences commits) [].
Proof. exact (proj1 (loop_maps_from budget commits acc0)). Qed.


Lemma loop_counts_keys (budget : Q) (commits : list Commit) :
  map fst (a_updaterCounts (loop budget commits))
  = firstSeen (map fst (occurrences commits)).
Proof.
  rewrite loop_counts. unfold tallyCount. rewrite tally_keys. simpl.
  apply filter_all. reflexivity.
Qed.


Lemma count_fold (l : list Q) (a : Z) :
  fold_left (fun v _ => (v + 1)%Z) l a = (a + Z.of_nat (List.length l))%Z.
Proof.
  revert a. induction l as [|x r IH]; intros a; simpl List.length; simpl fold_left.
  - lia.
  - rewrite IH. lia.
Qed.

Lemma loop_counts_get (budget : Q) (commits : list Commit) (name : string) :
  map_get (a_updaterCounts (loop budget commits)) name
  = if (timesSeen name commits =? 0)%nat then None
    else Some (Z.of_nat (timesSeen name commits)).
Proof.
  rewrite loop_counts. unfold tallyCount. rewrite tally_get.
  unfold timesSeen, occurrencesOf.
  destruct (filter _ (occurrences commits)) as [|o ws]; [reflexivity|].
  rewrite count_fold, length_map. reflexivity.
Qed.


Lemma occurrences_named (commits : list Commit) (o : string * Q) :
  In o (occurrences commits) -> fst o <> EmptyString.
Proof.
  unfold occurrences. rewrite in_flat_map. intros (c & _ & Ho).
  apply in_map_iff in Ho. destruct Ho as (u & <- & _). simpl.
  unfold updaterName. destruct (displayName u) as [s|]; [|discriminate].
  destruct (String.eqb s EmptyString) eqn:E; [discriminate|].
  apply String.eqb_neq, E.
Qed.

Lemma timesSeen_named (commits : list Commit) (name : string) :
  (0 < timesSeen name commits)%nat -> name <> EmptyString.
Proof.
  unfold timesSeen, occurrencesOf. intros H.
  destruct (filter _ (occurrences commits)) as [|o ws] eqn:E; [simpl in H; lia|].
  assert (In o (o :: ws)) as Ho by (left; reflexivity).
  rewrite <- E in Ho. apply filter_In in Ho. destruct Ho as [Ho Hn].
  apply String.eqb_eq in Hn. subst name. eapply occurrences_named, Ho.
Qed.

Lemma named_iff {V : Type} (e : string * V) :
  named e = true <-> fst e <> EmptyString /\ fst e <> anonymous.
Proof.
  unfold named. rewrite andb_true_iff, !negb_true_iff, !String.eqb_neq. tauto.
Qed.


Lemma count_cmp_key (a b : string * Z) :
  inject_Z (snd b - snd a) <= 0 <-> - inject_Z (snd a) <= - inject_Z (snd b).
Proof. unfold Qle, Qopp, inject_Z. cbn [Qnum Qden]. lia. Qed.


(** X6.  The re-render hotspots are at most eight entries with distinct
    names, none of them the anonymous sentinel; each carries the number of
    times its name occurs among the updaters of all commits; they are in
    descending order of that number, names with the same number in the order
    they were first met; and a named updater that is not listed occurs no
    more often than any listed one, eight being listed then. *)
Theorem topUpdaters_ranking
    (commits : list Commit) (budget : Q) (profile : option ProfilerJSON) :
  commits <> [] ->
  exists st,
    aggregate commits budget profile = Some st
    /\ (List.length (topUpdaters st) <= 8)%nat
    /\ NoDup (map fst (topUpdaters st))
    /\ (forall name n, In (name, n) (topUpdaters st) ->
          name <> anonymous
          /\ n = Z.of_nat (timesSeen name commits) /\ (1 <= n)%Z)
    /\ StronglySorted (countOrder commits) (topUpdaters st)
    /\ (forall name, name <> anonymous -> (0 < timesSeen name commits)%nat ->
          In name (map fst (topUpdaters st))
          \/ (List.length (topUpdaters st) = 8%nat
              /\ forall e, In e (topUpdaters st) ->
                           (Z.of_nat (timesSeen name commits) <= snd e)%Z)).
Proof.
  intros Hne. destruct (aggregate_some commits budget profile Hne) as [st Hst].
  exists st. split; [exact Hst|].
  rewrite (aggregate_topUpdaters _ _ _ _ Hst).
  set (m := a_updaterCounts (loop budget commits)).
  assert (NoDup (map fst m)) as Hnd
      by (subst m; rewrite loop_counts_keys; apply firstSeen_NoDup).
  pose (key := fun e : string * Z => - inject_Z (snd e)).
  split; [apply firstn_le_length|].
  split; [apply ranking_NoDup, Hnd|].
  split; [|split].
  - intros name n Hin. apply ranking_In in Hin. destruct Hin as [Hin Hn].
    apply named_iff in Hn. simpl in Hn.
    apply (In_map_get m name n Hnd) in Hin. subst m.
    rewrite loop_counts_get in Hin.
    destruct (timesSeen name commits =? 0)%nat eqn:E; [discriminate|].
    apply Nat.eqb_neq in E. injection Hin as <-.
    split; [tauto|]. split; [reflexivity | lia].
  - eapply StronglySorted_weaken;
      [|apply (ranking_sorted _ key m count_cmp_key)].
    intros a b [H|[H1 H2]]; [left | right].
    + unfold key, Qlt, Qopp, inject_Z in H. cbn [Qnum Qden] in H. lia.
    + split.
      * unfold key, Qeq, Qopp, inject_Z in H1. cbn [Qnum Qden] in H1. lia.
      * subst m. rewrite loop_counts_keys in H2. exact H2.
  - intros name Hanon Hseen.
    assert (In (name, Z.of_nat (timesSeen name commits)) m) as Hin.
    { apply (In_map_get m _ _ Hnd). subst m. rewrite loop_counts_get.
      destruct (timesSeen name commits =? 0)%nat eqn:E; [|reflexivity].
      apply Nat.eqb_eq in E. lia. }
    assert (named (name, Z.of_nat (timesSeen name commits)) = true) as Hn.
    { apply named_iff. simpl. split; [apply (timesSeen_named commits), Hseen | exact Hanon]. }
    destruct (ranking_complete _ key m count_cmp_key _ Hin Hn) as [H|[Hl H]].
    + left. apply in_map_iff. exists (name, Z.of_nat (timesSeen name commits)). auto.
    + right. split; [exact Hl|]. intros e He. specialize (H e He).
      unfold key, Qle, Qopp, inject_Z in H. cbn [Qnum Qden fst snd] in H. lia.
Qed.

Lemma topUpdaters_ranking_witness :
  exists st,
    aggregate threeWithUpdaters (167 # 10) None = Some st
    /\ topUpdaters st = [("Foo"%string, 2%Z); ("Bar"%string, 2%Z)]
    /\ StronglySorted (countOrder threeWithUpdaters) (topUpdaters st).
Proof.
  destruct (topUpdaters_ranking threeWithUpdaters (167 # 10) None ltac:(discriminate))
    as (st & Hst & _ & _ & _ & Hs & _).
  exists st. split; [exact Hst|]. split; [|exact Hs].
  injection Hst as <-. reflexivity.
Defined.



(** ** The jank table and the statistics *)

Lemma withIndex_filter_length (p : Commit -> bool) (commits : list Commit) (i : nat) :
  List.length (filter (fun e => p (commit e)) (withIndex i commits))
  = List.length (filter p commits).
Proof.
  revert i. induction commits as [|c r IH]; intros i; simpl; [reflexivity|].
  destruct (p c); simpl; rewrite IH; reflexivity.
Qed.

Lemma jank_full_In (commits : list Commit) (budget : Q) (e : IndexedCommit) :
  In e (sort (fun a b => duration (commit b) - duration (commit a))
             (filter (fun c => gt (duration (commit c)) budget) (withIndex 0 commits)))
  <-> nth_error commits (idx e) = Some (commit e) /\ budget < duration (commit e).
Proof.
  rewrite sort_In, filter_In, withIndex_In, gt_true, Nat.sub_0_r. intuition lia.
Qed.

Lemma jank_full_sorted (commits : list Commit) (budget : Q) :
  StronglySorted jankOrder
    (sort (fun a b => duration (commit b) - duration (commit a))
          (filter (fun c => gt (duration (commit c)) budget) (withIndex 0 commits))).
Proof.
  eapply StronglySorted_weaken;
    [|apply sort_stable
        with (key := fun e => - duration (commit e))
             (prec := fun a b => (idx a < idx b)%nat)].
  - intros a b [H|[H1 H2]]; [left | right].
    + exact (proj1 (Qopp_lt_iff _ _) H).
    + split; [exact (proj1 (Qopp_eq_iff _ _) H1) | exact H2].
  - intros a b. rewrite Qminus_le_0, Qopp_le_iff. reflexivity.
  - apply filter_sorted, withIndex_sorted.
Qed.

(** X8.  The jank table has as many rows as there are janky commits in
    the statistics, up to 20; and when it has a row, the first row is the
    worst commit of the statistics, at its position in the profile. *)
Theorem jank_table_agrees_with_stats
    (commits : list Commit) (budget : Q) (profile : option ProfilerJSON) :
  commits <> [] ->
  exists st,
    aggregate commits budget profile = Some st
    /\ List.length (jankyCommits commits budget) = Nat.min 20 (janky st)
    /\ forall h rest, jankyCommits commits budget = h :: rest ->
         commit h = worst st /\ nth_error commits (idx h) = Some (worst st).
Proof.
  intros Hne. destruct (aggregate_some commits budget profile Hne) as [st Hst].
  exists st. split; [exact Hst|].
  assert (janky st = List.length (filter (fun c => gt (duration c) budget) commits))
    as Hj.
  { destruct commits as [|c0 r]; [congruence|]. injection Hst as <-.
    cbn [janky]. apply loop_janky. }
  unfold jankyCommits, slice0.
  set (full := sort _ _).
  split.
  - rewrite length_firstn. subst full.
    rewrite sort_length, (withIndex_filter_length (fun c => gt (duration c) budget)), Hj.
    reflexivity.
  - intros h rest Hh.
    assert (exists rest', full = h :: rest') as [rest' Hfull].
    { destruct full as [|x r]; [discriminate|]. injection Hh as -> _. eauto. }
    destruct (aggregate_worst _ _ _ _ Hst) as (iw & Hiw & Hmax & Hfirst).
    pose proof (jank_full_sorted commits budget) as Hs. fold full in Hs.
    assert (In h full) as Hin by (rewrite Hfull; left; reflexivity).
    apply jank_full_In in Hin. destruct Hin as [Hnth Hover].
    assert (In {| commit := worst st; idx := iw |} full) as Hw.
    { apply jank_full_In. simpl. split; [exact Hiw|].
      eapply Qlt_le_trans; [exact Hover|]. apply Hmax. eapply nth_error_In, Hnth. }
    rewrite Hfull in Hw, Hs. inversion Hs as [|? ? _ Hall]; subst.
    destruct Hw as [Heq|Hw]; [rewrite Heq; simpl; auto|].
    rewrite Forall_forall in Hall. specialize (Hall _ Hw).
    exfalso. destruct Hall as [H|[H1 H2]]; simpl in *.
    + apply (Qlt_not_le _ _ H). apply Hmax. eapply nth_error_In, Hnth.
    + specialize (Hfirst _ _ H2 Hnth). rewrite H1 in Hfirst.
      exact (Qlt_irrefl _ Hfirst).
Qed.

Lemma jank_table_agrees_with_stats_witness :
  exists st h rest,
    aggregate (map commitOf [20; 30; 5; 30]) (167 # 10) None = Some st
    /\ jankyCommits (map commitOf [20; 30; 5; 30]) (167 # 10) = h :: rest
    /\ List.length (h :: rest) = 3%nat
    /\ commit h = worst st /\ idx h = 1%nat.
Proof.
  destruct (jank_table_agrees_with_stats (map commitOf [20; 30; 5; 30]) (167 # 10) None
              ltac:(discriminate))
    as (st & Hst & Hlen & Hhead).
  exists st. eexists. eexists. split; [exact Hst|]. split; [reflexivity|].
  split; [reflexivity|]. split; [|reflexivity].
  exact (proj1 (Hhead _ _ eq_refl)).
Defined.

(** ** Rows of the jank table *)

Lemma round_near (x : Q) :
  x - (1 # 2) < inject_Z (Math_round x) /\ inject_Z (Math_round x) <= x + (1 # 2).
Proof.
  unfold Math_round.
  pose proof (Qfloor_le (x + (1 # 2))) as H1.
  pose proof (Qlt_floor (x + (1 # 2))) as H2.
  rewrite inject_Z_plus in H2. change (inject_Z 1) with 1 in H2.
  split; lra.
Qed.

Lemma round_within (x : Q) (lo hi : Z) :
  inject_Z lo <= x <= inject_Z hi -> (lo <= Math_round x <= hi)%Z.
Proof.
  intros [H1 H2]. destruct (round_near x) as [R1 R2]. split.
  - assert (inject_Z lo < inject_Z (Math_round x) + 1) as H by lra.
    change 1 with (inject_Z 1) in H. rewrite <- inject_Z_plus, <- Zlt_Qlt in H. lia.
  - assert (inject_Z (Math_round x) < inject_Z hi + 1) as H by lra.
    change 1 with (inject_Z 1) in H. rewrite <- inject_Z_plus, <- Zlt_Qlt in H. lia.
Qed.

Lemma share_bounds (a t : Q) : 0 < t -> 0 <= a <= t -> 0 <= a / t * 100 <= 100.
Proof.
  intros Ht [H0 H1].
  assert (0 <= a / t) by (apply Qle_shift_div_l; [exact Ht | lra]).
  assert (a / t <= 1) by (apply Qle_shift_div_r; [exact Ht | lra]).
  split; lra.
Qed.



(** ** Colours and meters *)

Lemma clamp_spec (x lo hi : Q) :
  lo <= hi ->
  (x <= lo /\ clamp x lo hi == lo)
  \/ (lo <= x <= hi /\ clamp x lo hi == x)
  \/ (hi <= x /\ clamp x lo hi == hi).
Proof.
  intros Hlh. unfold clamp.
  destruct (Q.min_spec hi x) as [[H1 E1]|[H1 E1]];
    destruct (Q.max_spec lo (Qmin hi x)) as [[H2 E2]|[H2 E2]];
    rewrite E1 in *; rewrite E2.
  - right. right. split; [lra | reflexivity].
  - right. right. split; [lra|]. lra.
  - right. left. split; [lra | reflexivity].
  - left. split; [lra | reflexivity].
Qed.

Lemma div_le_iff (a b c : Q) : 0 < c -> (a / c <= b <-> a <= b * c).
Proof.
  intros Hc. split; intros H.
  - assert (a == a / c * c) as -> by (field; lra).
    apply Qmult_le_compat_r; [exact H | lra].
  - apply Qle_shift_div_r; assumption.
Qed.

Lemma Qle_bool_false (x y : Q) : Qle_bool x y = false <-> y < x.
Proof.
  rewrite <- gt_true. unfold gt. destruct (Qle_bool x y); simpl; split; congruence.
Qed.

(** X10.  For a positive budget, a row is drawn in the danger colour
    exactly when its commit is longer than the budget, and in the success
    colour exactly when it takes at most 0.6 of the budget; the meter of the
    row agrees with the row on the danger colour, and its width is between
    0 and 100 percent, above 50 when the commit is over budget.  So every
    row of the jank table is in the danger colour with a meter above 50
    percent. *)
Theorem row_colours (budget : Q) :
  0 < budget ->
  (forall c,
      let row := CommitRow c budget in
      (row_color row = theme.danger <-> budget < duration c)
      /\ (row_color row = theme.success <-> duration c <= (6 # 10) * budget)
      /\ (meter_color (row_meter row) = theme.danger <-> budget < duration c)
      /\ 0 <= meter_pct (row_meter row) <= 100
      /\ (budget < duration c -> 50 < meter_pct (row_meter row)))
  /\ (forall commits h,
         In h (jankyCommits commits budget) ->
         row_color (CommitRow (commit h) budget) = theme.danger
         /\ meter_color (row_meter (CommitRow (commit h) budget)) = theme.danger
         /\ 50 < meter_pct (row_meter (CommitRow (commit h) budget))).
Proof.
  intros Hb.
  assert (forall c,
      let row := CommitRow c budget in
      (row_color row = theme.danger <-> budget < duration c)
      /\ (row_color row = theme.success <-> duration c <= (6 # 10) * budget)
      /\ (meter_color (row_meter row) = theme.danger <-> budget < duration c)
      /\ 0 <= meter_pct (row_meter row) <= 100
      /\ (budget < duration c -> 50 < meter_pct (row_meter row))) as Hrow.
  { intros c row. subst row. unfold CommitRow.
    cbn [row_color row_meter]. unfold durationColor, MeterBar.
    cbn [meter_color meter_pct].
    set (x := duration c / budget).
    assert (forall q, x <= q <-> duration c <= q * budget) as Hx
        by (intros q; apply div_le_iff, Hb).
    set (v := clamp (clamp x 0 2) 0 2).
    assert (0 <= v <= 2 /\ (v <= 1 <-> x <= 1) /\ (x <= 1 -> v <= x \/ v == 0)
            /\ (1 < x -> 1 < v)) as (Hv & Hv1 & _ & Hv2).
    { subst v.
      destruct (clamp_spec x 0 2 ltac:(discriminate)) as [[H1 E1]|[[H1 E1]|[H1 E1]]];
        destruct (clamp_spec (clamp x 0 2) 0 2 ltac:(discriminate))
          as [[H2 E2]|[[H2 E2]|[H2 E2]]];
        rewrite E2; rewrite ?E1; rewrite E1 in H2;
        repeat split; intros; try lra; try (left; lra); try (right; lra). }
    split; [|split; [|split; [|split]]].
    - destruct (Qle_bool x (6 # 10)) eqn:E1; [|destruct (Qle_bool x 1) eqn:E2].
      + apply Qle_bool_iff in E1. split; [discriminate|].
        intros H. exfalso. apply Hx in E1. lra.
      + apply Qle_bool_iff in E2. split; [discriminate|].
        intros H. exfalso. apply Hx in E2. lra.
      + apply Qle_bool_false in E2. split; [intros _ | reflexivity].
        apply Qnot_le_lt. intros H. assert (x <= 1) by (apply Hx; lra). lra.
    - destruct (Qle_bool x (6 # 10)) eqn:E1; [|destruct (Qle_bool x 1) eqn:E2].
      + apply Qle_bool_iff in E1. split; [intros _ | reflexivity].
        apply Hx, E1.
      + apply Qle_bool_false in E1. split; [discriminate|].
        intros H. apply Hx in H. lra.
      + apply Qle_bool_false in E1. split; [discriminate|].
        intros H. apply Hx in H. lra.
    - destruct (Qle_bool v (6 # 10)) eqn:E1; [|destruct (Qle_bool v 1) eqn:E2].
      + apply Qle_bool_iff in E1. split; [discriminate|].
        intros H. exfalso. assert (v <= 1) as H1 by lra.
        apply Hv1, Hx in H1. lra.
      + apply Qle_bool_iff in E2. split; [discriminate|].
        intros H. exfalso. apply Hv1, Hx in E2. lra.
      + apply Qle_bool_false in E2. split; [intros _ | reflexivity].
        apply Qnot_le_lt. intros H.
        assert (v <= 1) by (apply Hv1, Hx; lra). lra.
    - destruct (Q.min_spec 100 (v * 50)) as [[H E]|[H E]]; rewrite E; lra.
    - intros H.
      assert (1 < x).
      { apply Qnot_le_lt. intros Hle. apply Hx in Hle. lra. }
      specialize (Hv2 H0).
      destruct (Q.min_spec 100 (v * 50)) as [[H' E]|[H' E]]; rewrite E; lra. }
  split; [exact Hrow|].
  intros commits h Hin. unfold jankyCommits, slice0 in Hin.
  apply In_firstn, jank_full_In in Hin. destruct Hin as [_ Hover].
  destruct (Hrow (commit h)) as (H1 & _ & H3 & _ & H5).
  split; [apply H1, Hover|]. split; [apply H3, Hover | apply H5, Hover].
Qed.

Lemma row_colours_witness :
  row_color (CommitRow (commitOf 20) (budgetOf Hz60)) = theme.danger
  /\ row_color (CommitRow (commitOf 5) (budgetOf Hz60)) = theme.success
  /\ 50 < meter_pct (row_meter (CommitRow (commitOf 20) (budgetOf Hz60))).
Proof.
  destruct (row_colours (budgetOf Hz60) ltac:(reflexivity)) as [Hrow _].
  destruct (Hrow (commitOf 20)) as (H1 & _ & _ & _ & H5).
  destruct (Hrow (commitOf 5)) as (_ & H2 & _).
  split; [apply H1; reflexivity|]. split; [apply H2; discriminate|].
  apply H5. reflexivity.
Defined.

(** ** The bars of the re-render hotspots *)

Lemma topUpdaters_desc_positive (commits : list Commit) (budget : Q)
    (profile : option ProfilerJSON) (st : Stats) :
  aggregate commits budget profile = Some st ->
  StronglySorted (fun a b => (snd b <= snd a)%Z) (topUpdaters st)
  /\ forall e, In e (topUpdaters st) -> (1 <= snd e)%Z.
Proof.
  intros Hst. rewrite (aggregate_topUpdaters _ _ _ _ Hst).
  set (m := a_updaterCounts (loop budget commits)).
  assert (NoDup (map fst m)) as Hnd
      by (subst m; rewrite loop_counts_keys; apply firstSeen_NoDup).
  split.
  - eapply StronglySorted_weaken;
      [|apply (ranking_sorted _ (fun e : string * Z => - inject_Z (snd e)) m count_cmp_key)].
    intros a b H. apply keyThenPrec_le in H.
    unfold Qle, Qopp, inject_Z in H. cbn [Qnum Qden] in H. lia.
  - intros [name n] Hin. apply ranking_In in Hin. destruct Hin as [Hin _].
    apply (In_map_get m name n Hnd) in Hin. subst m.
    rewrite loop_counts_get in Hin.
    destruct (timesSeen name commits =? 0)%nat eqn:E; [discriminate|].
    apply Nat.eqb_neq in E. injection Hin as <-. simpl. lia.
Qed.

Lemma fold_max_head (l : list Q) (c0 : Q) :
  (forall x, In x l -> x <= c0) -> fold_left Qmax l c0 == c0.
Proof.
  intros H. induction l as [|x r IH]; simpl; [reflexivity|].
  assert (Qmax c0 x == c0) as E by (apply Q.max_l, H; left; reflexivity).
  assert (forall a b, a == b -> fold_left Qmax r a == fold_left Qmax r b) as Hcomp.
  { clear. induction r as [|y r IH]; simpl; intros a b Hab; [exact Hab|].
    apply IH. rewrite Hab. reflexivity. }
  rewrite (Hcomp _ _ E). apply IH. intros y Hy. apply H. right. exact Hy.
Qed.

Lemma Hotspots_eq (i0 : string * Q) (rest : list (string * Q)) :
  Hotspots (i0 :: rest)
  = Some (map (barOf (fold_left Qmax (map snd rest) (snd i0))) (i0 :: rest)).
Proof. destruct i0. reflexivity. Qed.

(** X11.  The re-render hotspots section shows the placeholder exactly
    when the ranking is empty.  Otherwise it shows one bar per entry, in the
    order of the ranking; every bar has a width above 0 and at most 100
    percent, no bar is wider than the one before it, and the first bar is
    full width and in the danger colour. *)
Theorem hotspot_bars
    (commits : list Commit) (budget : Q) (profile : option ProfilerJSON) :
  commits <> [] ->
  exists st,
    aggregate commits budget profile = Some st
    /\ match Hotspots (hotspotItems st) with
       | None => topUpdaters st = []
       | Some bars =>
           map bar_name bars = map fst (topUpdaters st)
           /\ (forall b, In b bars -> 0 < bar_width b <= 100)
           /\ StronglySorted (fun a b => bar_width b <= bar_width a) bars
           /\ exists b0 rest, bars = b0 :: rest
                              /\ bar_width b0 == 100
                              /\ bar_color b0 = theme.danger
       end.
Proof.
  intros Hne. destruct (aggregate_some commits budget profile Hne) as [st Hst].
  exists st. split; [exact Hst|].
  destruct (topUpdaters_desc_positive _ _ _ _ Hst) as [Hs Hpos].
  unfold hotspotItems.
  destruct (topUpdaters st) as [|[n0 c0] rest] eqn:E; [reflexivity|].
  set (top := (n0, c0) :: rest) in *.
  set (g := fun e : string * Z => (fst e, inject_Z (snd e))).
  set (mx := fold_left Qmax (map snd (map g rest)) (inject_Z c0)).
  assert (Hotspots (map g top) = Some (map (fun e => barOf mx (g e)) top)) as ->.
  { rewrite <- (map_map g (barOf mx)).
    exact (Hotspots_eq (g (n0, c0)) (map g rest)). }
  assert (mx == inject_Z c0) as Hmx.
  { subst mx. apply fold_max_head. intros x Hx.
    rewrite map_map in Hx. apply in_map_iff in Hx. destruct Hx as (e & <- & He).
    inversion Hs as [|? ? _ Hall]; subst. rewrite Forall_forall in Hall.
    cbn [snd g]. rewrite <- Zle_Qle. exact (Hall e He). }
  assert (0 < inject_Z c0) as Hc0.
  { change 0 with (inject_Z 0). rewrite <- Zlt_Qlt.
    specialize (Hpos (n0, c0) (or_introl eq_refl)). simpl in Hpos. lia. }
  assert (0 < mx) as Hmpos by (rewrite Hmx; exact Hc0).
  assert (forall e, In e top -> 0 < inject_Z (snd e) / mx * 100 <= 100) as Hw.
  { intros e He.
    assert (0 < inject_Z (snd e) <= inject_Z c0) as [H1 H2].
    { split.
      - change 0 with (inject_Z 0). rewrite <- Zlt_Qlt.
        specialize (Hpos e He). lia.
      - rewrite <- Zle_Qle. destruct He as [<-|He]; [simpl; lia|].
        inversion Hs as [|? ? _ Hall]; subst. rewrite Forall_forall in Hall.
        exact (Hall e He). }
    rewrite Hmx. split.
    - apply Qmult_lt_0_compat; [|reflexivity].
      apply Qlt_shift_div_l; [exact Hc0 | lra].
    - apply share_bounds; [exact Hc0 | lra]. }
  split; [|split; [|split]].
  - rewrite map_map. reflexivity.
  - intros b Hb. apply in_map_iff in Hb.
    destruct Hb as (e & <- & He). cbn [barOf bar_width g snd]. apply Hw, He.
  - clear - Hs Hmpos. induction Hs as [|a r Hr IH Ha]; simpl; constructor.
    + exact IH.
    + apply Forall_forall. intros b Hb. apply in_map_iff in Hb.
      destruct Hb as (e & <- & He). cbn [barOf bar_width g snd].
      rewrite Forall_forall in Ha. specialize (Ha e He).
      apply Qmult_le_compat_r; [|discriminate].
      apply Qmult_le_compat_r; [rewrite <- Zle_Qle; exact Ha|].
      apply Qlt_le_weak, Qinv_lt_0_compat, Hmpos.
  - subst top. cbn [map]. eexists. eexists. split; [reflexivity|].
    cbn [barOf bar_width bar_color g snd].
    assert (inject_Z c0 / mx == 1) as H1 by (rewrite Hmx; field; lra).
    split; [rewrite H1; reflexivity|].
    assert (gt (inject_Z c0 / mx) (66 # 100) = true) as ->
        by (apply gt_true; rewrite H1; reflexivity).
    reflexivity.
Qed.

Lemma hotspot_bars_witness :
  exists st bars,
    aggregate threeWithUpdaters (167 # 10) None = Some st
    /\ Hotspots (hotspotItems st) = Some bars
    /\ map bar_name bars = ["Foo"%string; "Bar"%string].
Proof.
  destruct (hotspot_bars threeWithUpdaters (167 # 10) None ltac:(discriminate))
    as (st & Hst & Hbars).
  exists st. injection Hst as <-. eexists. split; [reflexivity|].
  split; reflexivity.
Defined.

(** * The bridge *)

Lemma round_inject_Z (z : Z) : Math_round (inject_Z z) = z.
Proof.
  assert (z <= Math_round (inject_Z z) <= z)%Z as H
      by (apply round_within; split; apply Qle_refl).
  lia.
Qed.

Lemma bridge_fps_range (d : Z) :
  (0 <= Math_round (1000 / inject_Z (Z.max 16 d)) <= 63)%Z.
Proof.
  apply round_within.
  assert (16 <= inject_Z (Z.max 16 d)) as H.
  { change 16 with (inject_Z 16). rewrite <- Zle_Qle. lia. }
  assert (0 < inject_Z (Z.max 16 d)) as Hpos by lra.
  change (inject_Z 0) with 0. change (inject_Z 63) with 63. split.
  - apply Qle_shift_div_l; [exact Hpos | lra].
  - apply Qle_shift_div_r; [exact Hpos | lra].
Qed.

Lemma ticksOf_app (a b : list Bridge.Sent) :
  ticksOf (a ++ b) = (ticksOf a ++ ticksOf b)%list.
Proof.
  induction a as [|[p|d] r IH]; simpl; rewrite ?IH; reflexivity.
Qed.

Lemma bridge_step_ticks (ev : Bridge.Event) (s : Bridge.State) :
  (0 <= Bridge.stallAccum s)%Z ->
  (0 <= Bridge.stallAccum (fst (Bridge.step ev s)))%Z
  /\ Forall tickInRange (ticksOf (snd (Bridge.step ev s))).
Proof.
  intros H0. destruct ev as [hooked t1 t2|fb| |now|now|[p|]|[p|]]; simpl.
  - unfold Bridge.onStart. destruct (Bridge.capturing s); simpl; [auto|].
    split; [|constructor].
    destruct (50 <? t2 - t1)%Z eqn:E; [apply Z.ltb_lt in E|]; lia.
  - split; [exact H0|].
    destruct (Bridge.usedHook s), (Bridge.lastHookPayload s), fb; constructor.
  - auto.
  - unfold Bridge.raf. destruct (Bridge.capturing s); simpl; [|auto].
    split; [|constructor].
    destruct (50 <? now - Bridge.lastTick s)%Z eqn:E; [apply Z.ltb_lt in E|]; lia.
  - unfold Bridge.emit. destruct (Bridge.capturing s); simpl; [|auto].
    split; [lia|]. constructor; [|constructor]. split; simpl.
    + eexists. split; [reflexivity | apply bridge_fps_range].
    + exists (Bridge.stallAccum s). rewrite round_inject_Z. auto.
  - unfold Bridge.onCommitFiberRoot. destruct (Bridge.capturing s); simpl; auto.
  - unfold Bridge.onCommitFiberRoot. destruct (Bridge.capturing s); simpl; auto.
  - unfold Bridge.poll. destruct (Bridge.capturing s); simpl; auto.
  - unfold Bridge.poll. destruct (Bridge.capturing s); simpl; auto.
Qed.

Lemma bridge_run_ticks (evs : list Bridge.Event) (s : Bridge.State) :
  (0 <= Bridge.stallAccum s)%Z ->
  (0 <= Bridge.stallAccum (fst (Bridge.run evs s)))%Z
  /\ Forall tickInRange (ticksOf (snd (Bridge.run evs s))).
Proof.
  revert s. induction evs as [|ev r IH]; intros s H0; simpl.
  - auto.
  - destruct (bridge_step_ticks ev s H0) as [H1 H2].
    destruct (Bridge.step ev s) as [s1 out1]. simpl in H1, H2.
    destruct (IH s1 H1) as [H3 H4].
    destruct (Bridge.run r s1) as [s2 out2]. simpl in *.
    split; [exact H3|]. rewrite ticksOf_app. apply Forall_app. auto.
Qed.

(** X12.  Whatever the order of the callbacks and whatever the clock
    reads, the stall accumulator of the bridge never goes below 0, and every
    ["fps-tick"] it sends carries whole numbers: an fps between 0 and 63 and
    a stall that is not negative.  So when the panel folds the samples of the
    bridge from reset accumulators, its stall total is the sum of
    [max(0, stallMs)] over the samples, and its worst fps, when there is one,
    lies between 0 and 63. *)
Theorem bridge_ticks_in_range
    (evs : list Bridge.Event) (now : Z) (panel : PanelState) :
  sessionWorstFps panel = None ->
  sessionStallTotalMs panel == 0 ->
  let out := snd (Bridge.run evs (Bridge.setup now)) in
  let panel' := onSamples (ticksOf out) panel in
  (0 <= Bridge.stallAccum (fst (Bridge.run evs (Bridge.setup now))))%Z
  /\ Forall tickInRange (ticksOf out)
  /\ sessionStallTotalMs panel' == total_of (clampedStalls (ticksOf out))
  /\ (forall w, sessionWorstFps panel' = Some w -> 0 <= w <= 63).
Proof.
  intros Hw Hs out panel'.
  destruct (bridge_run_ticks evs (Bridge.setup now)) as [H1 H2]; [simpl; lia|].
  fold out in H2.
  split; [exact H1|]. split; [exact H2|]. split.
  - subst panel'. rewrite onSamples_stall, Hs, Qplus_0_l. symmetry.
    apply total_of_clamped. eapply Forall_impl; [|exact H2].
    intros d [_ (k & -> & Hk)]. change 0 with (inject_Z 0).
    rewrite <- Zle_Qle. exact Hk.
  - intros w Hw'. subst panel'.
    destruct (ticksOf out) as [|d r] eqn:E.
    + simpl in Hw'. congruence.
    + destruct (onSamples_worst_from r (onFpsTick d panel) (tick_fps d))
        as (m & Hm & _ & _ & Hin).
      { simpl. rewrite Hw. reflexivity. }
      unfold onSamples in Hw'. simpl in Hw'. unfold onSamples in Hm.
      rewrite Hm in Hw'. injection Hw' as <-.
      assert (exists d', In d' (d :: r) /\ m = tick_fps d') as (d' & Hd' & ->).
      { destruct Hin as [->|(d' & Hd' & ->)]; [exists d | exists d']; simpl; auto. }
      rewrite Forall_forall in H2. destruct (H2 d' Hd') as [(f & -> & Hf) _].
      change 0 with (inject_Z 0). change 63 with (inject_Z 63).
      rewrite <- !Zle_Qle. exact Hf.
Qed.

Lemma bridge_ticks_in_range_witness :
  let evs := [Bridge.Start false 1000 1000; Bridge.Raf 1100; Bridge.Emit 2000] in
  ticksOf (snd (Bridge.run evs (Bridge.setup 0)))
  = [ {| tick_fps := inject_Z 1; jsStallsMs := inject_Z 84 |} ]
  /\ sessionStallTotalMs
       (onSamples (ticksOf (snd (Bridge.run evs (Bridge.setup 0)))) (initialState true))
     == 84.
Proof.
  intros evs.
  destruct (bridge_ticks_in_range evs 0 (initialState true) eq_refl ltac:(reflexivity))
    as (_ & _ & Hsum & _).
  split; [reflexivity|]. rewrite Hsum. reflexivity.
Defined.

Lemma bridge_idle_step (ev : Bridge.Event) (s : Bridge.State) :
  Bridge.capturing s = false -> quiet ev = true -> Bridge.step ev s = (s, []).
Proof.
  intros Hc Hq.
  destruct ev as [hooked t1 t2|fb| |now|now|d|p]; try discriminate; simpl.
  - destruct s as [c lt sa uh lp]. simpl in Hc. subst c. reflexivity.
  - unfold Bridge.raf. rewrite Hc. reflexivity.
  - unfold Bridge.emit. rewrite Hc. reflexivity.
  - unfold Bridge.onCommitFiberRoot. rewrite Hc. reflexivity.
  - unfold Bridge.poll. rewrite Hc. reflexivity.
Qed.

(** X13.  A bridge that is not capturing stays as it is and sends nothing,
    whatever timers fire, commits happen or resets arrive, until it is
    started or stopped; in particular after a stop and after a reset. *)
Theorem idle_bridge_is_silent (evs : list Bridge.Event) (s : Bridge.State) :
  forallb quiet evs = true ->
  (Bridge.capturing s = false -> Bridge.run evs s = (s, []))
  /\ (forall fb, snd (Bridge.run evs (fst (Bridge.onStop fb s))) = [])
  /\ snd (Bridge.run evs (fst (Bridge.onReset s))) = [].
Proof.
  intros Hq.
  assert (forall s0, Bridge.capturing s0 = false -> Bridge.run evs s0 = (s0, [])) as H.
  { induction evs as [|ev r IH]; intros s0 Hc; simpl; [reflexivity|].
    simpl in Hq. apply andb_true_iff in Hq. destruct Hq as [Hq1 Hq2].
    rewrite (bridge_idle_step ev s0 Hc Hq1), (IH Hq2 s0 Hc). reflexivity. }
  split; [apply H|]. split.
  - intros fb. rewrite H; reflexivity.
  - rewrite H; reflexivity.
Qed.

Lemma idle_bridge_is_silent_witness :
  snd (Bridge.run [Bridge.Raf 5000; Bridge.Emit 6000; Bridge.Commit None; Bridge.Reset]
                  (fst (Bridge.onReset
                          (fst (Bridge.run [Bridge.Start true 0 0; Bridge.Raf 100]
                                           (Bridge.setup 0))))))
  = [].
Proof.
  exact (proj2 (proj2 (idle_bridge_is_silent
                         [Bridge.Raf 5000; Bridge.Emit 6000; Bridge.Commit None; Bridge.Reset]
                         (fst (Bridge.run [Bridge.Start true 0 0; Bridge.Raf 100]
                                          (Bridge.setup 0)))
                         eq_refl))).
Defined.

Lemma bridge_session_run (evs : list Bridge.Event) (s : Bridge.State) :
  Bridge.capturing s = true -> forallb inSession evs = true ->
  let s' := fst (Bridge.run evs s) in
  Bridge.capturing s' = true
  /\ Bridge.usedHook s' = Bridge.usedHook s
  /\ Bridge.lastHookPayload s'
     = match lastCommit evs with
       | Some p => Some p
       | None => Bridge.lastHookPayload s
       end.
Proof.
  revert s. induction evs as [|ev r IH]; intros s Hc Hq; simpl.
  - auto.
  - simpl in Hq. apply andb_true_iff in Hq. destruct Hq as [Hq1 Hq2].
    assert (Bridge.capturing (fst (Bridge.step ev s)) = true
            /\ Bridge.usedHook (fst (Bridge.step ev s)) = Bridge.usedHook s
            /\ Bridge.lastHookPayload (fst (Bridge.step ev s))
               = match ev with
                 | Bridge.Commit (Some p) => Some p
                 | _ => Bridge.lastHookPayload s
                 end) as (H1 & H2 & H3).
    { destruct ev as [hooked t1 t2|fb| |now|now|[p|]|[p|]]; try discriminate; simpl;
        unfold Bridge.raf, Bridge.emit, Bridge.onCommitFiberRoot, Bridge.poll;
        rewrite Hc; simpl; auto. }
    destruct (Bridge.step ev s) as [s1 out1]. simpl in H1, H2, H3.
    destruct (IH s1 H1 Hq2) as (I1 & I2 & I3).
    destruct (Bridge.run r s1) as [s2 out2]. simpl in *.
    split; [exact I1|]. split; [congruence|].
    rewrite I3. destruct (lastCommit r); [reflexivity|].
    rewrite H3. destruct ev as [? ? ?|?| |?|?|[?|]|?]; reflexivity.
Qed.

(** X14.  A capture that is started on an idle bridge, runs through timers,
    commits and polls, and is stopped: the stop exports the profile of the
    last commit that produced one, when the DevTools hook is in use; without
    such a commit it exports the payload an earlier capture left behind, if
    a reset kept one, and otherwise the fallback export, if there is one.
    After the stop the bridge is idle and has forgotten hook and payload. *)
Theorem stop_exports_last_commit
    (s : Bridge.State) (hooked : bool) (t1 t2 : Z)
    (evs : list Bridge.Event) (fallback : option ProfilerJSON) :
  Bridge.capturing s = false ->
  forallb inSession evs = true ->
  let s1 := fst (Bridge.onStart hooked t1 t2 s) in
  let s2 := fst (Bridge.run evs s1) in
  let payload := match lastCommit evs with
                 | Some p => Some p
                 | None => Bridge.lastHookPayload s
                 end in
  snd (Bridge.onStop fallback s2)
  = finalExport (hooked || Bridge.usedHook s) payload fallback
  /\ Bridge.capturing (fst (Bridge.onStop fallback s2)) = false
  /\ Bridge.usedHook (fst (Bridge.onStop fallback s2)) = false
  /\ Bridge.lastHookPayload (fst (Bridge.onStop fallback s2)) = None.
Proof.
  intros Hc Hq s1 s2 payload.
  assert (Bridge.capturing s1 = true
          /\ Bridge.usedHook s1 = (hooked || Bridge.usedHook s)%bool
          /\ Bridge.lastHookPayload s1 = Bridge.lastHookPayload s) as (H1 & H2 & H3).
  { subst s1. unfold Bridge.onStart. rewrite Hc. unfold Bridge.raf. simpl.
    destruct hooked; auto. }
  destruct (bridge_session_run evs s1 H1 Hq) as (I1 & I2 & I3). fold s2 in I1, I2, I3.
  split; [|simpl; auto].
  unfold Bridge.onStop, finalExport. cbn [snd].
  rewrite I2, H2, I3, H3. reflexivity.
Qed.

Lemma stop_exports_last_commit_witness :
  let p1 := documentOf [commitOf 20] 0 5000 in
  let p2 := documentOf [commitOf 30] 0 5000 in
  snd (Bridge.onStop None
         (fst (Bridge.run [Bridge.Commit (Some p1); Bridge.Raf 50; Bridge.Commit (Some p2);
                           Bridge.Commit None]
                          (fst (Bridge.onStart true 0 0 (Bridge.setup 0))))))
  = [Bridge.Export p2].
Proof.
  intros p1 p2.
  exact (proj1 (stop_exports_last_commit (Bridge.setup 0) true 0 0
                  [Bridge.Commit (Some p1); Bridge.Raf 50; Bridge.Commit (Some p2);
                   Bridge.Commit None]
                  None eq_refl eq_refl)).
Defined.

(** * The panel over a capture *)

Lemma onSamples_keeps (samples : list FpsTick) (st : PanelState) :
  client (onSamples samples st) = client st
  /\ isCapturing (onSamples samples st) = isCapturing st
  /\ hz (onSamples samples st) = hz st
  /\ profile (onSamples samples st) = profile st.
Proof.
  unfold onSamples. revert st. induction samples as [|d r IH]; intros st; simpl.
  - auto.
  - destruct (IH (onFpsTick d st)) as (H1 & H2 & H3 & H4).
    rewrite H1, H2, H3, H4. simpl. auto.
Qed.

(** X15.  A capture in the panel, from the click that starts it through
    any samples to the click that stops it: the panel sends one start and one
    stop with its frame rate; what the session accumulators held before the
    start plays no part; and the stop keeps them, so that after it the worst
    fps is the minimum of the samples of this capture ([null] without
    samples) and the stall total their sum.  The profile is the one the
    profiler store hands over at the stop, or the previous one when it hands
    over none. *)
Theorem capture_session
    (st0 : PanelState) (samples : list FpsTick) (data data0 : option ProfilerJSON) :
  client st0 = true -> isCapturing st0 = false ->
  let started := toggleCapture data0 st0 in
  let sampled := onSamples samples (fst started) in
  let stopped := toggleCapture data sampled in
  snd started = [StartProfiler (hz st0)]
  /\ snd stopped = [StopProfiler (hz st0)]
  /\ isCapturing (fst stopped) = false
  /\ profile (fst stopped) = match data with Some p => Some p | None => profile st0 end
  /\ sessionStallTotalMs (fst stopped) == total_of (map jsStallsMs samples)
  /\ (samples = [] -> sessionWorstFps (fst stopped) = None)
  /\ (samples <> [] ->
      exists m, sessionWorstFps (fst stopped) = Some m /\ isMinFps samples m).
Proof.
  intros Hc Hi started sampled stopped.
  assert (fst started
          = {| client := true; profile := profile st0; hz := hz st0; isCapturing := true;
               fps := fps st0; stallsMs := stallsMs st0; hermesStatus := hermesStatus st0;
               sessionWorstFps := None; sessionStallTotalMs := 0 |}
          /\ snd started = [StartProfiler (hz st0)]) as [Hs1 Hs2].
  { subst started. unfold toggleCapture. rewrite Hc, Hi. simpl. auto. }
  destruct (onSamples_keeps samples (fst started)) as (K1 & K2 & K3 & K4).
  fold sampled in K1, K2, K3, K4. rewrite Hs1 in K1, K2, K3, K4. simpl in K1, K2, K3, K4.
  assert (fst stopped
          = {| client := true;
               profile := match data with Some p => Some p | None => profile st0 end;
               hz := hz st0; isCapturing := false;
               fps := fps sampled; stallsMs := stallsMs sampled;
               hermesStatus := hermesStatus sampled;
               sessionWorstFps := sessionWorstFps sampled;
               sessionStallTotalMs := sessionStallTotalMs sampled |}
          /\ snd stopped = [StopProfiler (hz st0)]) as [Ht1 Ht2].
  { subst stopped. unfold toggleCapture. rewrite K1, K2, K3, K4. simpl.
    destruct data; auto. }
  rewrite Ht1. cbn [isCapturing profile sessionStallTotalMs sessionWorstFps].
  split; [exact Hs2|]. split; [exact Ht2|]. split; [reflexivity|].
  split; [reflexivity|].
  split; [|split].
  - subst sampled. rewrite onSamples_stall, Hs1. simpl. lra.
  - intros ->. subst sampled. rewrite Hs1. reflexivity.
  - intros Hne. subst sampled. destruct samples as [|d r]; [congruence|].
    destruct (onSamples_worst_from r (onFpsTick d (fst started)) (tick_fps d))
      as (m & Hm & _ & Hall & Hin).
    { rewrite Hs1. reflexivity. }
    exists m. split; [exact Hm|]. split.
    + destruct Hin as [->|(d' & Hd' & ->)]; [exists d | exists d']; simpl; auto.
    + intros d' [<-|Hd']; [|auto].
      destruct (onSamples_worst_from r (onFpsTick d (fst started)) (tick_fps d))
        as (m' & Hm' & Hle & _); [rewrite Hs1; reflexivity|].
      unfold onSamples in Hm, Hm'. rewrite Hm in Hm'. injection Hm' as <-. exact Hle.
Qed.

Lemma capture_session_witness :
  let st0 := onSamples [ {| tick_fps := 10; jsStallsMs := 1000 |} ] (initialState true) in
  let stopped := toggleCapture None (onSamples threeSamples (fst (toggleCapture None st0))) in
  sessionWorstFps st0 = Some 10
  /\ sessionWorstFps (fst stopped) = Some 45
  /\ sessionStallTotalMs (fst stopped) == 315.
Proof.
  intros st0 stopped.
  destruct (capture_session st0 threeSamples None None eq_refl eq_refl)
    as (_ & _ & _ & _ & Hsum & _ & _).
  split; [reflexivity|]. split; [reflexivity|].
  subst stopped. rewrite Hsum. reflexivity.
Defined.

(** ** The budget *)

Lemma filter_length_mono {A : Type} (p q : A -> bool) (l : list A) :
  (forall x, p x = true -> q x = true) ->
  (List.length (filter p l) <= List.length (filter q l))%nat.
Proof.
  intros H. induction l as [|a r IH]; simpl; [lia|].
  destruct (p a) eqn:E.
  - rewrite (H a E). simpl. lia.
  - destruct (q a); simpl; lia.
Qed.

Lemma Math_round_mono (x y : Q) : x <= y -> (Math_round x <= Math_round y)%Z.
Proof.
  intros H. unfold Math_round. apply Qfloor_resp_le. lra.
Qed.

(** X16.  A tighter budget never hides jank: with a budget that is not
    greater, the janky count and the jank rate of the same commits are not
    smaller, and every row of the jank table is still a janky commit.  The
    120 Hz preset is the tighter of the two presets. *)
Theorem tighter_budget_more_jank
    (commits : list Commit) (b1 b2 : Q) (profile : option ProfilerJSON) :
  commits <> [] -> b1 <= b2 ->
  exists st1 st2,
    aggregate commits b1 profile = Some st1
    /\ aggregate commits b2 profile = Some st2
    /\ (janky st2 <= janky st1)%nat
    /\ (jankRate st2 <= jankRate st1)%Z
    /\ (forall h, In h (jankyCommits commits b2) ->
                  b1 < duration (commit h)
                  /\ nth_error commits (idx h) = Some (commit h))
    /\ budgetOf Hz120 <= budgetOf Hz60.
Proof.
  intros Hne Hb.
  assert (1 <= List.length commits)%nat as Hn
      by (destruct commits; [congruence | simpl; lia]).
  assert (forall b st, aggregate commits b profile = Some st ->
            janky st = List.length (filter (fun c => gt (duration c) b) commits)
            /\ jankRate st = Math_round (ratio (janky st) (List.length commits) * 100))
    as Hj.
  { intros b st Hst. destruct commits as [|c0 r]; [congruence|]. injection Hst as <-.
    cbn [janky jankRate]. split; [apply loop_janky | reflexivity]. }
  destruct (aggregate_some commits b1 profile Hne) as [st1 H1].
  destruct (aggregate_some commits b2 profile Hne) as [st2 H2].
  destruct (Hj _ _ H1) as [J1 R1]. destruct (Hj _ _ H2) as [J2 R2].
  assert (janky st2 <= janky st1)%nat as Hle.
  { rewrite J1, J2. apply filter_length_mono. intros c Hc.
    apply gt_true in Hc. apply gt_true. lra. }
  exists st1, st2. split; [exact H1|]. split; [exact H2|]. split; [exact Hle|].
  split; [|split; [|discriminate]].
  - rewrite R1, R2. apply Math_round_mono.
    apply Qmult_le_compat_r; [|discriminate].
    unfold ratio. apply Qmult_le_compat_r.
    + rewrite <- Zle_Qle. lia.
    + apply Qlt_le_weak, Qinv_lt_0_compat.
      change 0 with (inject_Z 0). rewrite <- Zlt_Qlt. lia.
  - intros h Hin. unfold jankyCommits, slice0 in Hin.
    apply In_firstn, jank_full_In in Hin. destruct Hin as [Hn' Hover].
    split; [lra | exact Hn'].
Qed.

Lemma tighter_budget_more_jank_witness :
  exists st1 st2,
    aggregate (map commitOf [20; 10; 5]) (budgetOf Hz120) None = Some st1
    /\ aggregate (map commitOf [20; 10; 5]) (budgetOf Hz60) None = Some st2
    /\ janky st1 = 2%nat /\ janky st2 = 1%nat.
Proof.
  destruct (tighter_budget_more_jank (map commitOf [20; 10; 5])
              (budgetOf Hz120) (budgetOf Hz60) None
              ltac:(discriminate) ltac:(discriminate))
    as (st1 & st2 & H1 & H2 & _).
  exists st1, st2. split; [exact H1|]. split; [exact H2|].
  injection H1 as <-. injection H2 as <-. split; reflexivity.
Defined.

(** * Profiles extracted from the fiber tree *)

Lemma traverseFiber_spec (fmt : NumberFormat) (clock : nat -> Z) (fiber : Fiber)
    (st : nat * list Commit) :
  let st' := traverseFiber fmt clock fiber st in
  exists added,
    snd st' = (snd st ++ added)%list
    /\ fst st' = (fst st + List.length added)%nat
    /\ map duration added = measured fiber
    /\ Forall extractedShape added.
Proof.
  revert st. induction fiber as [|ad e p l nm ch IHc sb IHs]; intros st; simpl.
  - exists []. rewrite app_nil_r, Nat.add_0_r. repeat split; constructor.
  - set (st1 := match ad with Some d => _ | None => st end).
    assert (exists a1, snd st1 = (snd st ++ a1)%list
                       /\ fst st1 = (fst st + List.length a1)%nat
                       /\ map duration a1 = match ad with Some d => [d] | None => [] end
                       /\ Forall extractedShape a1) as (a1 & A1 & A2 & A3 & A4).
    { subst st1. destruct ad as [d|].
      - eexists [_]. simpl. split; [reflexivity|]. split; [lia|].
        split; [reflexivity|]. constructor; [|constructor].
        unfold extractedShape, commitOfFiber. simpl.
        repeat split; try discriminate.
        destruct nm as [s|]; [|left; reflexivity].
        destruct (String.eqb s EmptyString) eqn:E; [left; reflexivity|].
        right. exists s. split; [apply String.eqb_neq, E | reflexivity].
      - exists []. rewrite app_nil_r, Nat.add_0_r. repeat split; constructor. }
    destruct (IHc st1) as (a2 & B1 & B2 & B3 & B4).
    destruct (IHs (traverseFiber fmt clock ch st1)) as (a3 & C1 & C2 & C3 & C4).
    exists (a1 ++ a2 ++ a3)%list.
    rewrite C1, B1, A1, C2, B2, A2, !map_app, A3, B3, C3, !length_app, <- !app_assoc.
    repeat split; try lia.
    repeat (apply Forall_app; split); assumption.
Qed.

(** X17.  [extractProfilerData] returns [null] exactly when no fiber of
    the tree has an [actualDuration].  Otherwise it returns a document of
    version 4 with one root, from which the panel reads one commit per
    measured fiber, with the durations in the order fiber, children,
    siblings; every such commit has a timestamp, both effect durations and
    at most one updater, which is named.  With a clock that does not run
    backwards the profiling window is at least 5000 ms, so the panel has
    statistics with a commits-per-minute value for it. *)
Theorem extracted_profile (fmt : NumberFormat) (clock : nat -> Z) (current : Fiber) :
  (extractProfilerData fmt clock current = None <-> measured current = [])
  /\ forall doc,
       extractProfilerData fmt clock current = Some doc ->
       version doc = Some 4
       /\ (exists r, dataForRoots doc = Some [r])
       /\ map duration (parseCommits doc) = measured current
       /\ Forall extractedShape (parseCommits doc)
       /\ ((forall i, (clock i <= clock (S i))%Z) ->
           5000 <= windowOf (Some doc)
           /\ forall hz, exists st n,
                stats (Some doc) hz = Some st
                /\ total st = List.length (measured current)
                /\ perMinute st = Some n).
Proof.
  destruct (traverseFiber_spec fmt clock current (0%nat, [])) as (added & H1 & H2 & H3 & H4).
  simpl in H1, H2. unfold extractProfilerData. rewrite H1.
  destruct (0 <? List.length added)%nat eqn:E.
  - apply Nat.ltb_lt in E. split.
    + split; [discriminate|]. intros Hm. rewrite <- H3 in Hm.
      destruct added; [simpl in E; lia | discriminate].
    + intros doc Hdoc. injection Hdoc as <-.
      split; [reflexivity|]. split; [eexists; reflexivity|].
      split; [exact H3|]. split; [exact H4|].
      intros Hmono.
      assert (5000 <= inject_Z (clock (S (fst (traverseFiber fmt clock current (0%nat, [])))))
                      - inject_Z (clock (fst (traverseFiber fmt clock current (0%nat, []))) - 5000))
        as Hwin.
      { specialize (Hmono (fst (traverseFiber fmt clock current (0%nat, [])))).
        unfold Qminus. rewrite <- inject_Z_opp, <- inject_Z_plus.
        change 5000 with (inject_Z 5000). rewrite <- Zle_Qle. lia. }
      split; [exact Hwin|].
      intros hz0. unfold stats, commitsOf, parseCommits. cbn [dataForRoots nullish index].
      simpl nth_error. cbn [commitData nullish].
      destruct added as [|c0 r]; [simpl in E; lia|].
      eexists. eexists. split; [reflexivity|]. cbn [total perMinute].
      split; [rewrite <- H3, length_map; reflexivity|].
      cbn [profilingEndTime profilingStartTime nullish].
      assert (gt (inject_Z (clock (S (fst (traverseFiber fmt clock current (0%nat, [])))))
                  - inject_Z (clock (fst (traverseFiber fmt clock current (0%nat, []))) - 5000))
                 0 = true) as -> by (apply gt_true; lra).
      reflexivity.
  - apply Nat.ltb_ge in E. split.
    + split; [intros _ | reflexivity].
      rewrite <- H3. destruct added; [reflexivity | simpl in E; lia].
    + intros doc Hdoc. discriminate.
Qed.

Lemma extracted_profile_witness :
  exists doc,
    extractProfilerData plainFormat (fun i => Z.of_nat i) threeFibers = Some doc
    /\ map duration (parseCommits doc) = [20; 3]
    /\ 5000 <= windowOf (Some doc).
Proof.
  destruct (extracted_profile plainFormat (fun i => Z.of_nat i) threeFibers) as [_ H].
  eexists. split; [reflexivity|].
  destruct (H _ eq_refl) as (_ & _ & Hd & _ & Hw).
  split; [exact Hd|]. apply Hw. intros i. lia.
Defined.

(** * A healthy profile *)







